(** * MobileScratchpad: task counters, checkbox toggling and the view/edit machine

    A shallow embedding of [src/web/mobile/MobileScratchpad.tsx].

    The counters, the checkbox branches of the renderer and the toggle
    handler are driven by six regular expressions.  They are kept as data
    (a list of nodes with the flags the source uses) and run by a small
    backtracking matcher that follows the ECMAScript semantics of the
    constructs that occur: greedy [*] and [+] over a character class, [^]
    and [$] with and without the [m] flag, the [i] flag, and capture groups.
    JavaScript strings are sequences of UTF-16 code units.  The renderer's
    header, spacer and plain-text branches draw no control and are one case
    here. *)

From Stdlib Require Import String Ascii.
From Stdlib Require Import List NArith ZArith Bool Lia.
Import ListNotations.

(** ** Strings *)

(** A UTF-16 code unit. *)
Definition char := N.
Bind Scope N_scope with char.
Definition str := list char.

(** An ASCII literal of the source as a sequence of code units. *)
Definition js (s : string) : str := map N_of_ascii (list_ascii_of_string s).
Arguments js s%_string.

Definition LF : char := 10%N.

Module Chars.
Local Open Scope N_scope.

(** LineTerminator of ECMAScript: LF, CR, LS, PS. *)
Definition isLineTerminator (c : char) : bool :=
  (c =? 10) || (c =? 13) || (c =? 8232) || (c =? 8233).

(** The class [\s]: WhiteSpace and LineTerminator. *)
Definition isSpace (c : char) : bool :=
  (c =? 9) || (c =? 10) || (c =? 11) || (c =? 12) || (c =? 13) || (c =? 32)
  || (c =? 160) || (c =? 5760) || ((8192 <=? c) && (c <=? 8202))
  || (c =? 8232) || (c =? 8233) || (c =? 8239) || (c =? 8287)
  || (c =? 12288) || (c =? 65279).

(** Canonicalize of the [i] flag (upper-casing).  Only ASCII letters are
    tabulated: the pattern characters of this file are ASCII, and no code
    unit above 127 canonicalizes to one below 128. *)
Definition canonicalize (c : char) : char :=
  if (97 <=? c) && (c <=? 122) then c - 32 else c.
End Chars.
Import Chars.

(** ** Regular expressions *)

Inductive cls : Type :=
| Lit (c : char)     (* a pattern character, also [\[] and [[x]] *)
| Space              (* [\s], also [[\s]] *)
| Dot.               (* [.] *)

Inductive node : Type :=
| Bol                (* [^] *)
| Eol                (* [$] *)
| One (k : cls)
| Star (k : cls)     (* greedy [k*] *)
| Plus (k : cls)     (* greedy [k+] *)
| Open               (* [(] *)
| Close.             (* [)] *)

Record regex : Type := RegExp {
  pattern : list node;
  flag_i : bool;
  flag_m : bool
}.

Definition lit (s : string) : cls :=
  match js s with c :: _ => Lit c | [] => Dot end.

Section Matcher.
Variable re : regex.

Definition cls_match (k : cls) (c : char) : bool :=
  match k with
  | Lit a => if flag_i re then N.eqb (canonicalize c) (canonicalize a)
             else N.eqb c a
  | Space => isSpace c
  | Dot => negb (isLineTerminator c)
  end.

(** [prev] is the code unit before the current position, if any. *)
Definition atBol (prev : option char) : bool :=
  match prev with
  | None => true
  | Some c => flag_m re && isLineTerminator c
  end.

Definition atEol (s : str) : bool :=
  match s with
  | [] => true
  | c :: _ => flag_m re && isLineTerminator c
  end.

(** The backtracking matcher.  [s] is the input from the current position,
    [op] the input from where the open group started, [caps] the groups
    closed so far.  The result is the input left after the match and the
    groups.  A greedy repetition first takes one more code unit and only
    when the rest of the pattern fails after that tries the rest here. *)
Fixpoint run (r : list node) (prev : option char) (s op : str)
    (caps : list str) {struct r} : option (str * list str) :=
  match r with
  | [] => Some (s, caps)
  | Bol :: r' => if atBol prev then run r' prev s op caps else None
  | Eol :: r' => if atEol s then run r' prev s op caps else None
  | One k :: r' =>
      match s with
      | c :: s' => if cls_match k c then run r' (Some c) s' op caps else None
      | [] => None
      end
  | Star k :: r' =>
      (fix star (prev : option char) (s : str) {struct s} :=
         match s with
         | c :: s' =>
             if cls_match k c then
               match star (Some c) s' with
               | Some res => Some res
               | None => run r' prev s op caps
               end
             else run r' prev s op caps
         | [] => run r' prev s op caps
         end) prev s
  | Plus k :: r' =>
      match s with
      | c :: s' =>
          if cls_match k c then
            (fix star (prev : option char) (s : str) {struct s} :=
               match s with
               | c :: s' =>
                   if cls_match k c then
                     match star (Some c) s' with
                     | Some res => Some res
                     | None => run r' prev s op caps
                     end
                   else run r' prev s op caps
               | [] => run r' prev s op caps
               end) (Some c) s'
          else None
      | [] => None
      end
  | Open :: r' => run r' prev s s caps
  | Close :: r' =>
      run r' prev s op (caps ++ [firstn (length op - length s) op])
  end.

(** One attempt of the whole pattern at the current position. *)
Definition attempt (prev : option char) (s : str) : option (str * list str) :=
  run (pattern re) prev s s [].

Record found : Type := Found {
  before : str;         (* input before the match *)
  matched : str;        (* [$&], element 0 of the match array *)
  groups : list str;    (* elements 1, 2, ... *)
  after : str           (* input after the match *)
}.

(** RegExpBuiltinExec without [g]: the first position, from the left, at
    which the pattern matches. *)
Fixpoint scan (prev : option char) (s : str) : option found :=
  match attempt prev s with
  | Some (rest, caps) =>
      Some (Found [] (firstn (length s - length rest) s) caps rest)
  | None =>
      match s with
      | [] => None
      | c :: s' =>
          match scan (Some c) s' with
          | Some m => Some (Found (c :: before m) (matched m) (groups m) (after m))
          | None => None
          end
      end
  end.

(** [re.test(s)] and [s.match(re)] for a regex without the [g] flag. *)
Definition exec (s : str) : option found := scan None s.
Definition test (s : str) : bool :=
  match exec s with Some _ => true | None => false end.

(** [s.match(re)] for a regex with the [g] flag: every match, from the
    left, the next search starting where the last match ended (one further
    after an empty match).  [skip] counts the positions still to pass
    before the next search starts. *)
Fixpoint matchAll (prev : option char) (s : str) (skip : nat) : list str :=
  match skip, s with
  | S k, c :: s' => matchAll (Some c) s' k
  | S _, [] => []
  | O, _ =>
      match attempt prev s with
      | Some (rest, _) =>
          let m := firstn (length s - length rest) s in
          m :: match s with
               | [] => []
               | c :: s' => matchAll (Some c) s' (length m - 1)
               end
      | None =>
          match s with
          | [] => []
          | c :: s' => matchAll (Some c) s' 0
          end
      end
  end.

(** The array [s.match(re)] returns, [None] for [null]. *)
Definition match_g (s : str) : option (list str) :=
  match matchAll None s 0 with
  | [] => None
  | ms => Some ms
  end.

(** A replacement template: text and [$n] references. *)
Inductive piece : Type := Txt (t : str) | Ref (n : nat).

Definition expand (tpl : list piece) (m : found) : str :=
  flat_map (fun p => match p with
                     | Txt t => t
                     | Ref n => nth (n - 1) (groups m) []
                     end) tpl.

(** [s.replace(re, tpl)] for a regex without the [g] flag. *)
Definition replace (tpl : list piece) (s : str) : str :=
  match exec s with
  | Some m => before m ++ expand tpl m ++ after m
  | None => s
  end.
End Matcher.

(** ** The component *)

Module Scratchpad.

(** *** The regular expressions of the source

    Each is quoted token by token, with spaces between the tokens. *)

Definition ws := Star Space.

(** [countUncheckedTasks]:  ^ [\s]* - \s* \[ \s* \] \s* .+ $   flags gm *)
Definition reCountUnchecked : regex :=
  RegExp [Bol; ws; One (lit "-"); ws; One (lit "["); ws; One (lit "]"); ws;
          Plus Dot; Eol] false true.

(** [countCheckedTasks]:  ^ [\s]* - \s* \[ x \] \s* .+ $   flags gim *)
Definition reCountChecked : regex :=
  RegExp [Bol; ws; One (lit "-"); ws; One (lit "["); One (lit "x");
          One (lit "]"); ws; Plus Dot; Eol] true true.

(** [TaskListRenderer]:  ^ ( \s* ) - \s* \[ \s* \] \s* ( .+ ) $   no flag *)
Definition reUncheckedLine : regex :=
  RegExp [Bol; Open; ws; Close; One (lit "-"); ws; One (lit "["); ws;
          One (lit "]"); ws; Open; Plus Dot; Close; Eol] false false.

(** [TaskListRenderer]:  ^ ( \s* ) - \s* \[ x \] \s* ( .+ ) $   flag i *)
Definition reCheckedLine : regex :=
  RegExp [Bol; Open; ws; Close; One (lit "-"); ws; One (lit "[");
          One (lit "x"); One (lit "]"); ws; Open; Plus Dot; Close; Eol]
         true false.

(** [handleToggleTask]:  ^ ( \s* ) - \s* \[ \s* \] \s*   no flag *)
Definition reToggleUnchecked : regex :=
  RegExp [Bol; Open; ws; Close; One (lit "-"); ws; One (lit "["); ws;
          One (lit "]"); ws] false false.

(** [handleToggleTask]:  ^ ( \s* ) - \s* \[ x \] \s*   flag i *)
Definition reToggleChecked : regex :=
  RegExp [Bol; Open; ws; Close; One (lit "-"); ws; One (lit "[");
          One (lit "x"); One (lit "]"); ws] true false.

(** ['$1- [x] '] and ['$1- [ ] ']. *)
Definition tplChecked : list piece := [Ref 1; Txt (js "- [x] ")].
Definition tplUnchecked : list piece := [Ref 1; Txt (js "- [ ] ")].

(** *** Lines *)

(** [s.split('\n')]: the empty string has one (empty) line. *)
Fixpoint split (s : str) : list str :=
  match s with
  | [] => [[]]
  | c :: s' =>
      if N.eqb c LF then [] :: split s'
      else match split s' with
           | l :: ls => (c :: l) :: ls
           | [] => [[c]]
           end
  end.

(** [lines.join('\n')]. *)
Fixpoint join (lines : list str) : str :=
  match lines with
  | [] => []
  | [l] => l
  | l :: ls => l ++ LF :: join ls
  end.

(** [lines[i]], [None] for [undefined]: a negative index names no element. *)
Definition array_get (lines : list str) (i : Z) : option str :=
  if (i <? 0)%Z then None else nth_error lines (Z.to_nat i).

Fixpoint set_nth (lines : list str) (n : nat) (v : str) : list str :=
  match lines, n with
  | _ :: ls, O => v :: ls
  | l :: ls, S k => l :: set_nth ls k v
  | [], O => [v]
  | [], S k => [] :: set_nth [] k v
  end.

(** [lines[i] = v] as [join] sees it afterwards: past the end the array
    grows, the holes joining as empty lines; a negative index sets a
    property that is no element. *)
Definition array_set (lines : list str) (i : Z) (v : str) : list str :=
  if (i <? 0)%Z then lines else set_nth lines (Z.to_nat i) v.

(** ToString of a value that is a string or [undefined]. *)
Definition toString (v : option str) : str :=
  match v with
  | Some s => s
  | None => js "undefined"
  end.

(** *** Line counters *)

(** [content] may be [undefined] at run time ([None]); [!content] holds for
    [undefined] and for the empty string. *)
Definition falsy (content : option str) : bool :=
  match content with
  | None | Some [] => true
  | Some (_ :: _) => false
  end.

Definition count_with (re : regex) (content : option str) : nat :=
  if falsy content then 0
  else match match_g re (toString content) with
       | Some matches => length matches
       | None => 0
       end.

Definition countUncheckedTasks : option str -> nat := count_with reCountUnchecked.
Definition countCheckedTasks : option str -> nat := count_with reCountChecked.

(** *** The renderer's classification of a line *)

(** [line.match(...)] of [TaskListRenderer] with [indent] and [text]. *)
Definition line_match (re : regex) (line : str) : option (str * str) :=
  match exec re line with
  | Some m => Some (nth 0 (groups m) [], nth 1 (groups m) [])
  | None => None
  end.

Definition uncheckedMatch : str -> option (str * str) := line_match reUncheckedLine.
Definition checkedMatch : str -> option (str * str) := line_match reCheckedLine.

Inductive rendered : Type :=
| UncheckedBox (indent text : str)
| CheckedBox (indent text : str)
| NoBox.          (* header, spacer or plain text: no toggle control *)

Definition renderLine (line : str) : rendered :=
  match uncheckedMatch line with
  | Some (indent, text) => UncheckedBox indent text
  | None =>
      match checkedMatch line with
      | Some (indent, text) => CheckedBox indent text
      | None => NoBox
      end
  end.

Definition isTaskLine (line : str) : bool :=
  match renderLine line with NoBox => false | _ => true end.

(** *** Props, state and handlers *)

(** Modelled from the spec: the type [AutoRunState] of
    [../hooks/useWebSocket], of which the spec gives the four fields. *)
Record AutoRunState : Type := {
  isRunning : bool;
  isStoppingFlag : bool;
  completedTasks : nat;
  totalTasksRun : nat
}.

Record Props : Type := {
  isOpen : bool;
  content : str;
  autoRunState : option AutoRunState;    (* absent, [null] or a state *)
  isSessionBusy : option bool            (* an optional prop *)
}.

Inductive Mode : Type := view | edit.

Record State : Type := {
  mode : Mode;
  localContent : str;
  showStats : bool
}.

(** The callbacks the component fires. *)
Inductive callback : Type :=
| onContentChange (newContent : str)
| onClose
| onStartAutoRun
| onStopAutoRun.

Definition setLocalContent (c : str) (st : State) : State :=
  {| mode := mode st; localContent := c; showStats := showStats st |}.
Definition setMode (m : Mode) (st : State) : State :=
  {| mode := m; localContent := localContent st; showStats := showStats st |}.
Definition setShowStats (b : bool) (st : State) : State :=
  {| mode := mode st; localContent := localContent st; showStats := b |}.

Definition uncheckedCount (st : State) : nat :=
  countUncheckedTasks (Some (localContent st)).
Definition checkedCount (st : State) : nat :=
  countCheckedTasks (Some (localContent st)).
Definition totalTasks (st : State) : nat := uncheckedCount st + checkedCount st.

(** The lines after the two tests of [handleToggleTask]; [None] is the
    TypeError of calling [replace] on [undefined]. *)
Definition toggleLines (lines : list str) (lineIndex : Z) : option (list str) :=
  let line := array_get lines lineIndex in
  if test reToggleUnchecked (toString line) then
    match line with
    | Some l => Some (array_set lines lineIndex (replace reToggleUnchecked tplChecked l))
    | None => None
    end
  else if test reToggleChecked (toString line) then
    match line with
    | Some l => Some (array_set lines lineIndex (replace reToggleChecked tplUnchecked l))
    | None => None
    end
  else Some lines.

(** [newContent] of [handleToggleTask]. *)
Definition toggleContent (content : str) (lineIndex : Z) : option str :=
  match toggleLines (split content) lineIndex with
  | Some lines => Some (join lines)
  | None => None
  end.

Definition handleToggleTask (st : State) (lineIndex : Z)
  : option (State * list callback) :=
  match toggleContent (localContent st) lineIndex with
  | Some newContent =>
      Some (setLocalContent newContent st, [onContentChange newContent])
  | None => None
  end.

Definition handleSave (st : State) : State * list callback :=
  (setMode view st, [onContentChange (localContent st)]).

Definition handleCancel (p : Props) (st : State) : State * list callback :=
  (setMode view (setLocalContent (content p) st), []).

Definition isAutoRunning (p : Props) : bool :=
  match autoRunState p with Some a => isRunning a | None => false end.
Definition isStopping (p : Props) : bool :=
  match autoRunState p with Some a => isStoppingFlag a | None => false end.
Definition busy (p : Props) : bool :=
  match isSessionBusy p with Some b => b | None => false end.

Definition canStartAutoRun (p : Props) (st : State) : bool :=
  negb (isAutoRunning p) && negb (busy p) && (0 <? uncheckedCount st).

(** The footer the component renders. *)
Inductive footer : Type :=
| CancelSave
| StopButton (disabled : bool)
| RunButton (disabled : bool) (label : nat).

Definition renderFooter (p : Props) (st : State) : footer :=
  match mode st with
  | edit => CancelSave
  | view =>
      if isAutoRunning p then StopButton (isStopping p)
      else RunButton (negb (canStartAutoRun p st)) (uncheckedCount st)
  end.

(** What the user can do to the component. *)
Inductive event : Type :=
| ClickView
| ClickEdit
| TypeText (value : str)     (* [onChange] of the textarea *)
| ClickSave
| ClickCancel
| ClickCheckbox (lineIndex : Z)
| ClickStats.

(** One event: the next state and the callbacks fired, [None] when the
    handler throws.  A disabled or absent control takes no click, and a
    closed component renders no control at all. *)
Definition step (p : Props) (st : State) (e : event)
  : option (State * list callback) :=
  if negb (isOpen p) then Some (st, []) else
  match e with
  | ClickView => Some (setMode view st, [])
  | ClickEdit =>
      if isAutoRunning p then Some (st, []) else Some (setMode edit st, [])
  | TypeText v =>
      match mode st with
      | edit => Some (setLocalContent v st, [])
      | view => Some (st, [])
      end
  | ClickSave =>
      match mode st with
      | edit => Some (handleSave st)
      | view => Some (st, [])
      end
  | ClickCancel =>
      match mode st with
      | edit => Some (handleCancel p st)
      | view => Some (st, [])
      end
  | ClickCheckbox i =>
      match mode st with
      | view =>
          match nth_error (split (localContent st)) (Z.to_nat i) with
          | Some line =>
              if (0 <=? i)%Z && isTaskLine line then handleToggleTask st i
              else Some (st, [])
          | None => Some (st, [])
          end
      | edit => Some (st, [])
      end
  | ClickStats => Some (setShowStats (negb (showStats st)) st, [])
  end.

Fixpoint steps (p : Props) (st : State) (es : list event)
  : option (State * list callback) :=
  match es with
  | [] => Some (st, [])
  | e :: es' =>
      match step p st e with
      | Some (st1, cs1) =>
          match steps p st1 es' with
          | Some (st2, cs2) => Some (st2, cs1 ++ cs2)
          | None => None
          end
      | None => None
      end
  end.

(** The line at [lineIndex] after [handleToggleTask], as the next render
    splits it. *)
Definition toggledAt (content : str) (lineIndex : nat) : option str :=
  match toggleContent content (Z.of_nat lineIndex) with
  | Some newContent => nth_error (split newContent) lineIndex
  | None => None
  end.


(** The first render: [useState('view')] and [useState(content)]. *)
Definition initial (p : Props) : State :=
  {| mode := view; localContent := content p; showStats := true |}.

(** The effect on [[content]]: a new [content] prop replaces the draft. *)
Definition syncContent (p : Props) (st : State) : State :=
  setLocalContent (content p) st.

End Scratchpad.
Import Scratchpad.

(** * Reading lines and texts

    The functions the statements and proofs below are written with. *)

(** The longest prefix whose elements satisfy [f], and what follows it. *)
Fixpoint takeWhile {A : Type} (f : A -> bool) (l : list A) : list A :=
  match l with
  | x :: l' => if f x then x :: takeWhile f l' else []
  | [] => []
  end.

Fixpoint dropWhile {A : Type} (f : A -> bool) (l : list A) : list A :=
  match l with
  | x :: l' => if f x then dropWhile f l' else l
  | [] => []
  end.

(** The code unit before the position reached after reading [x]. *)
Definition prevAfter (prev : option char) (x : str) : option char :=
  fold_left (fun _ c => Some c) x prev.

(** The least number of code units a pattern consumes. *)
Fixpoint minlen (r : list node) : nat :=
  match r with
  | [] => 0
  | (One _ | Plus _) :: r' => S (minlen r')
  | _ :: r' => minlen r'
  end.

(** The code units the class [[x]] matches under the [i] flag: x and X. *)
Definition isX (c : char) : bool := N.eqb c 120 || N.eqb c 88.

(** The code units [.] matches. *)
Definition notLT (c : char) : bool := negb (isLineTerminator c).

(** What follows the opening bracket of a line that starts with whitespace,
    a dash (45), whitespace and an opening bracket (91). *)
Definition afterDash (s : str) : option str :=
  match dropWhile isSpace s with
  | c :: s1 =>
      if N.eqb c 45 then
        match dropWhile isSpace s1 with
        | c1 :: s2 => if N.eqb c1 91 then Some s2 else None
        | [] => None
        end
      else None
  | [] => None
  end.

(** What follows the closing bracket (93) of a box that holds whitespace
    only. *)
Definition afterEmptyBox (s2 : str) : option str :=
  match dropWhile isSpace s2 with
  | c2 :: s3 => if N.eqb c2 93 then Some s3 else None
  | [] => None
  end.

(** What follows the closing bracket of a box that holds one x. *)
Definition afterTickedBox (s2 : str) : option str :=
  match s2 with
  | x :: c2 :: s3 => if isX x && N.eqb c2 93 then Some s3 else None
  | _ => None
  end.

(** What follows the box of an unchecked, and of a checked, prefix. *)
Definition afterUnchecked (s : str) : option str :=
  match afterDash s with
  | Some s2 => afterEmptyBox s2
  | None => None
  end.

Definition afterChecked (s : str) : option str :=
  match afterDash s with
  | Some s2 => afterTickedBox s2
  | None => None
  end.

Definition isSome {A : Type} (o : option A) : bool :=
  match o with Some _ => true | None => false end.

(** The line begins with an unchecked, or a checked, checkbox prefix. *)
Definition hasCheckboxPrefix (l : str) : bool :=
  isSome (afterUnchecked l) || isSome (afterChecked l).

(** What the handler writes back for a line. *)
Definition toggledLine (l : str) : str :=
  match afterUnchecked l with
  | Some s3 => takeWhile isSpace l ++ js "- [x] " ++ dropWhile isSpace s3
  | None =>
      match afterChecked l with
      | Some s3 => takeWhile isSpace l ++ js "- [ ] " ++ dropWhile isSpace s3
      | None => l
      end
  end.

(** A line as [split] gives it holds no line feed. *)
Definition noLF (l : str) : Prop := ~ In LF l.


(** A line of whitespace only, the empty line among them. *)
Definition allSpace (l : str) : bool := forallb isSpace l.

(** A line that is a checkbox prefix and no text, or a prefix cut off after
    the dash or inside an empty box:
    [ws - ws], [ws - ws [ ws], [ws - ws [ ws ] ws] and [ws - ws [x] ws]. *)
Definition bareBox (l : str) : bool :=
  match dropWhile isSpace l with
  | c :: l1 =>
      N.eqb c 45 &&
      match dropWhile isSpace l1 with
      | [] => true
      | c1 :: l2 =>
          N.eqb c1 91 &&
          (match dropWhile isSpace l2 with
           | [] => true
           | c2 :: l3 => N.eqb c2 93 && allSpace l3
           end
           || match l2 with
              | x :: c2 :: l3 => isX x && N.eqb c2 93 && allSpace l3
              | _ => false
              end)
      end
  | [] => false
  end.

(** A line the whole-text scan reads as the renderer does: no line
    terminator inside it, and not a bare box. *)
Definition tidyLine (l : str) : bool := forallb notLT l && negb (bareBox l).

(** A text whose lines, as [split] cuts them, are all tidy. *)
Definition tidy (T : str) : bool := forallb tidyLine (split T).

(** The patterns as the spec words them, with one space in the empty box:
    ^ \s* - \s* \[ space \] \s* .+   and   ^ \s* - \s* \[ x \] \s* .+  (i). *)
Definition spec_reUnchecked : regex :=
  RegExp [Bol; ws; One (lit "-"); ws; One (lit "["); One (lit " ");
          One (lit "]"); ws; Plus Dot] false false.
Definition spec_reChecked : regex :=
  RegExp [Bol; ws; One (lit "-"); ws; One (lit "["); One (lit "x");
          One (lit "]"); ws; Plus Dot] true false.

(** The number of lines of a text that a line pattern matches. *)
Definition countLines (re : regex) (T : str) : nat :=
  length (filter (test re) (split T)).

(** A pattern that closes no group. *)
Fixpoint noClose (r : list node) : bool :=
  match r with
  | [] => true
  | Close :: _ => false
  | _ :: r' => noClose r'
  end.

(** The tail [\s* .+ $] of the counters after the box. *)
Definition countTail (re : regex) (s3 : str) : option (str * list str) :=
  run re [ws; Plus Dot; Eol] (Some 93%N) s3 [] [].

(** What follows a line in a text: nothing, or a line feed and more. *)
Definition lineEnd (t : str) : Prop := t = [] \/ exists t', t = LF :: t'.

(** The same reading with [t] after it. *)
Definition andThen (t : str) (o : option str) : option str :=
  match o with Some s => Some (s ++ t) | None => None end.

(** What follows the first line in the text that [join] builds. *)
Definition tailOf (ls : list str) : str :=
  match ls with
  | [] => []
  | _ :: _ => LF :: join ls
  end.

(** An open component, and a text with a header, an empty line, tasks of
    both kinds in loose spacing and a plain line. *)
Definition sampleProps : Props :=
  {| isOpen := true; content := js "- [ ] A";
     autoRunState := None; isSessionBusy := None |}.

Definition sampleText : str :=
  js "# Tasks" ++ LF :: LF :: js "  - [ ] A" ++ LF :: js "-[X]B" ++ LF ::
  js "- [] C " ++ LF :: js "plain - [ ] text".

(** * The rest of the component

    The header, spacer and plain-text branches of [TaskListRenderer], the
    title of the Run button and the effect that follows the [content]
    prop. *)

Module View.

(** [^ ( #{1,6} ) \s+ ( .+ ) $] with the repetition at one count.  The
    matcher has no counted repetition; the greedy [#{1,6}] takes up to six
    and gives them back one at a time, which is the six patterns below
    tried from six down to one. *)
Definition reHeader (n : nat) : regex :=
  RegExp (Bol :: Open :: repeat (One (lit "#")) n
          ++ [Close; Plus Space; Open; Plus Dot; Close; Eol]) false false.

Fixpoint firstHeader (counts : list nat) (line : str) : option (str * str) :=
  match counts with
  | [] => None
  | n :: counts' =>
      match line_match (reHeader n) line with
      | Some m => Some m
      | None => firstHeader counts' line
      end
  end.

(** [headerMatch] of [TaskListRenderer] with [hashes] and [text]. *)
Definition headerMatch (line : str) : option (str * str) :=
  firstHeader [6; 5; 4; 3; 2; 1] line.

(** The size table, with its fallback. *)
Definition fontSize (level : nat) : str :=
  match level with
  | 1 => js "1.5em"
  | 2 => js "1.25em"
  | 3 => js "1.1em"
  | 4 => js "1em"
  | 5 => js "0.9em"
  | 6 => js "0.85em"
  | _ => js "1em"
  end.

(** [line.trim()]: whitespace and line terminators off both ends. *)
Definition trim (line : str) : str :=
  rev (dropWhile isSpace (rev (dropWhile isSpace line))).

(** [(indent?.length || 0) * 8], in pixels. *)
Definition paddingLeft (indent : str) : nat := length indent * 8.

(** What one line becomes.  A task row carries the index its button passes
    to [onToggleTask]. *)
Inductive element : Type :=
| TaskRow (checked : bool) (padding : nat) (toggles : nat) (text : str)
| HeaderRow (size : str) (text : str)
| Spacer
| TextRow (line : str).

Definition renderElement (index : nat) (line : str) : element :=
  match uncheckedMatch line with
  | Some (indent, text) => TaskRow false (paddingLeft indent) index text
  | None =>
      match checkedMatch line with
      | Some (indent, text) => TaskRow true (paddingLeft indent) index text
      | None =>
          match headerMatch line with
          | Some (hashes, text) => HeaderRow (fontSize (length hashes)) text
          | None =>
              match trim line with
              | [] => Spacer
              | _ :: _ => TextRow line
              end
          end
      end
  end.

Fixpoint mapFrom (index : nat) (lines : list str) : list element :=
  match lines with
  | [] => []
  | line :: lines' => renderElement index line :: mapFrom (S index) lines'
  end.

(** [lines.map((line, index) => ...)] of [TaskListRenderer]. *)
Definition TaskListRenderer (content : str) : list element :=
  mapFrom 0 (split content).

(** The [title] of the Run button. *)
Definition runTitle (p : Props) (st : State) : str :=
  if busy p then js "Session is busy"
  else if uncheckedCount st =? 0 then js "No tasks to run"
  else js "Start AutoRun".

(** The effect with dependency [[content]] at a render after the first: it
    runs when the prop differs from the one of the render before. *)
Definition contentEffect (before : str) (p : Props) (st : State) : State :=
  if list_eq_dec N.eq_dec before (content p) then st else syncContent p st.

End View.
Import View.

(** A callback that reports content. *)
Definition isContentChange (c : callback) : Prop :=
  exists s, c = onContentChange s.

(** Props of a component whose auto-run is running. *)
Definition runningProps : Props :=
  {| isOpen := true; content := js "- [ ] A";
     autoRunState := Some {| isRunning := true; isStoppingFlag := false;
                             completedTasks := 0; totalTasksRun := 1 |};
     isSessionBusy := None |}.

(** The code unit of the hash sign. *)
Definition isHash (c : char) : bool := N.eqb c 35.

(** The positions from here on at which a pattern matches. *)
Fixpoint hitsFrom (re : regex) (prev : option char) (s : str) : nat :=
  Nat.b2n (isSome (attempt re prev s)) +
  match s with
  | [] => 0
  | c :: s' => hitsFrom re (Some c) s'
  end.

(** The lines a text has for a pattern with the [m] flag: one, and one more
    after every line terminator. *)
Definition lineCount (T : str) : nat := S (length (filter isLineTerminator T)).

(** A text whose line terminators are all line feeds. *)
Definition onlyLF (T : str) : bool :=
  forallb (fun c => negb (isLineTerminator c) || N.eqb c LF) T.

(** * Facts about the matcher *)

Set Implicit Arguments.

Section Runs.
Variable A : Type.
Variable f : A -> bool.

Lemma take_drop_while (l : list A) : takeWhile f l ++ dropWhile f l = l.
Proof.
  induction l as [|x l IH]; simpl; [reflexivity|].
  destruct (f x); simpl; [now rewrite IH | reflexivity].
Qed.

Lemma takeWhile_all (l : list A) : forallb f (takeWhile f l) = true.
Proof.
  induction l as [|x l IH]; simpl; [reflexivity|].
  destruct (f x) eqn:E; simpl; [now rewrite E | reflexivity].
Qed.

Lemma dropWhile_head (l : list A) x l' :
  dropWhile f l = x :: l' -> f x = false.
Proof.
  induction l as [|y l IH]; simpl; [discriminate|].
  destruct (f y) eqn:E; [assumption|].
  intros H; injection H as -> _; assumption.
Qed.

Lemma dropWhile_app_all (w l : list A) :
  forallb f w = true -> dropWhile f (w ++ l) = dropWhile f l.
Proof.
  induction w as [|x w IH]; simpl; [reflexivity|].
  intros H; apply andb_prop in H as [-> H]; auto.
Qed.

Lemma takeWhile_app_all (w l : list A) :
  forallb f w = true -> takeWhile f (w ++ l) = w ++ takeWhile f l.
Proof.
  induction w as [|x w IH]; simpl; [reflexivity|].
  intros H; apply andb_prop in H as [-> H]; now rewrite IH.
Qed.

(** What follows the run is not touched by what comes after the list. *)
Lemma dropWhile_app_cons (l t : list A) x l' :
  dropWhile f l = x :: l' -> dropWhile f (l ++ t) = x :: l' ++ t.
Proof.
  induction l as [|y l IH]; simpl; [discriminate|].
  destruct (f y); [assumption|].
  intros H; injection H as -> ->; reflexivity.
Qed.

Lemma dropWhile_nil_all (l : list A) :
  dropWhile f l = [] -> forallb f l = true.
Proof.
  induction l as [|y l IH]; simpl; [reflexivity|].
  destruct (f y); [assumption | discriminate].
Qed.

Lemma dropWhile_all_nil (l : list A) :
  forallb f l = true -> dropWhile f l = [].
Proof.
  intros H. rewrite <- (app_nil_r l). now rewrite dropWhile_app_all.
Qed.

Lemma takeWhile_all_id (l : list A) :
  forallb f l = true -> takeWhile f l = l.
Proof.
  intros H. rewrite <- (app_nil_r l) at 1.
  rewrite takeWhile_app_all by assumption. simpl. apply app_nil_r.
Qed.

Lemma takeWhile_full (l : list A) :
  length l <= length (takeWhile f l) -> forallb f l = true.
Proof.
  induction l as [|x l IH]; simpl; [reflexivity|].
  destruct (f x); simpl; [intros H; apply IH; lia | lia].
Qed.

(** Giving back part of the run does not change where the run ends. *)
Lemma dropWhile_skipn (l : list A) n :
  n <= length (takeWhile f l) -> dropWhile f (skipn n l) = dropWhile f l.
Proof.
  revert n; induction l as [|x l IH]; intros n; simpl.
  - now rewrite skipn_nil.
  - destruct (f x) eqn:E; simpl.
    + destruct n as [|n]; simpl; [now rewrite E | intros H; apply IH; lia].
    + intros H. assert (n = 0) as -> by lia. simpl. now rewrite E.
Qed.
End Runs.

Unset Implicit Arguments.

Lemma prevAfter_cons prev c x : prevAfter prev (c :: x) = prevAfter (Some c) x.
Proof. reflexivity. Qed.

Lemma prevAfter_app prev x y :
  prevAfter prev (x ++ y) = prevAfter (prevAfter prev x) y.
Proof. apply fold_left_app. Qed.

Section MatcherFacts.
Variable re : regex.

Lemma run_Star_nil k r prev op caps :
  run re (Star k :: r) prev [] op caps = run re r prev [] op caps.
Proof. reflexivity. Qed.

Lemma run_Star_cons k r prev c s op caps :
  run re (Star k :: r) prev (c :: s) op caps =
  if cls_match re k c then
    match run re (Star k :: r) (Some c) s op caps with
    | Some res => Some res
    | None => run re r prev (c :: s) op caps
    end
  else run re r prev (c :: s) op caps.
Proof. reflexivity. Qed.

Lemma run_Plus k r prev s op caps :
  run re (Plus k :: r) prev s op caps =
  run re (One k :: Star k :: r) prev s op caps.
Proof. destruct s; reflexivity. Qed.

Lemma run_Open r prev s op caps :
  run re (Open :: r) prev s op caps = run re r prev s s caps.
Proof. reflexivity. Qed.

Lemma run_Close r prev s op caps :
  run re (Close :: r) prev s op caps =
  run re r prev s op (caps ++ [firstn (length op - length s) op]).
Proof. reflexivity. Qed.

Lemma run_Bol r prev s op caps :
  run re (Bol :: r) prev s op caps =
  if atBol re prev then run re r prev s op caps else None.
Proof. reflexivity. Qed.

Lemma run_Eol r prev s op caps :
  run re (Eol :: r) prev s op caps =
  if atEol re s then run re r prev s op caps else None.
Proof. reflexivity. Qed.

Lemma run_One k r prev s op caps :
  run re (One k :: r) prev s op caps =
  match s with
  | c :: s' => if cls_match re k c then run re r (Some c) s' op caps else None
  | [] => None
  end.
Proof. reflexivity. Qed.

(** A greedy repetition whose longest run lets the rest of the pattern
    succeed never backtracks. *)
Lemma star_commit k r op caps res : forall s prev,
  run re r (prevAfter prev (takeWhile (cls_match re k) s))
      (dropWhile (cls_match re k) s) op caps = Some res ->
  run re (Star k :: r) prev s op caps = Some res.
Proof.
  induction s as [|c s IH]; intros prev H.
  - exact H.
  - rewrite run_Star_cons. cbn [takeWhile dropWhile] in H.
    destruct (cls_match re k c).
    + rewrite prevAfter_cons in H. now rewrite (IH _ H).
    + exact H.
Qed.

(** When the rest of the pattern cannot start with a member of the class,
    the repetition takes the whole run and nothing else is tried. *)
Lemma star_exact k r op caps :
  (forall c s p, cls_match re k c = true -> run re r p (c :: s) op caps = None) ->
  forall s prev,
    run re (Star k :: r) prev s op caps =
    run re r (prevAfter prev (takeWhile (cls_match re k) s))
        (dropWhile (cls_match re k) s) op caps.
Proof.
  intros Hr; induction s as [|c s IH]; intros prev.
  - reflexivity.
  - rewrite run_Star_cons. cbn [takeWhile dropWhile].
    destruct (cls_match re k c) eqn:E; [|reflexivity].
    rewrite IH, prevAfter_cons.
    destruct (run re r _ (dropWhile _ s) op caps); [reflexivity|].
    now apply Hr.
Qed.

(** Whatever a repetition returns, the rest of the pattern returned it
    from some point of the run. *)
Lemma star_split k r op caps res : forall s prev,
  run re (Star k :: r) prev s op caps = Some res ->
  exists n, n <= length (takeWhile (cls_match re k) s) /\
            run re r (prevAfter prev (firstn n s)) (skipn n s) op caps = Some res.
Proof.
  induction s as [|c s IH]; intros prev H.
  - exists 0; split; [simpl; lia | exact H].
  - rewrite run_Star_cons in H. cbn [takeWhile].
    destruct (cls_match re k c) eqn:E.
    + destruct (run re (Star k :: r) (Some c) s op caps) as [res'|] eqn:R.
      * injection H as ->. destruct (IH _ R) as (n & Hn & Hrun).
        exists (S n); split; [simpl; lia | exact Hrun].
      * exists 0; split; [lia | exact H].
    + exists 0; split; [lia | exact H].
Qed.

(** A match is a prefix of the input, at least as long as the pattern
    demands. *)
Lemma run_suffix : forall r prev s op caps rest caps',
  run re r prev s op caps = Some (rest, caps') ->
  exists m, s = m ++ rest /\ minlen r <= length m.
Proof.
  induction r as [|n r IH]; intros prev s op caps rest caps' H.
  - injection H as -> _. exists []; split; [reflexivity | simpl; lia].
  - assert (Hstar : forall k s prev,
               run re (Star k :: r) prev s op caps = Some (rest, caps') ->
               exists m, s = m ++ rest /\ minlen r <= length m).
    { intros k s0 prev0 H0. apply star_split in H0 as (j & _ & H0).
      apply IH in H0 as (m & Hm & Hlen).
      exists (firstn j s0 ++ m); split.
      - rewrite <- app_assoc, <- Hm. symmetry; apply firstn_skipn.
      - rewrite length_app; lia. }
    destruct n; simpl minlen.
    + simpl in H. destruct (atBol re prev); [eauto | discriminate].
    + simpl in H. destruct (atEol re s); [eauto | discriminate].
    + rewrite run_One in H. destruct s as [|c s]; [discriminate|].
      destruct (cls_match re k c); [|discriminate].
      apply IH in H as (m & -> & Hlen).
      exists (c :: m); split; [reflexivity | simpl; lia].
    + eauto.
    + rewrite run_Plus, run_One in H. destruct s as [|c s]; [discriminate|].
      destruct (cls_match re k c); [|discriminate].
      apply Hstar in H as (m & -> & Hlen).
      exists (c :: m); split; [reflexivity | simpl; lia].
    + simpl in H. eauto.
    + simpl in H. eauto.
Qed.

(** Without the [m] flag a pattern that starts with [^] matches at the
    start of the input or nowhere. *)
Lemma scan_anchored r c s :
  pattern re = Bol :: r -> flag_m re = false -> scan re (Some c) s = None.
Proof.
  intros Hp Hm. revert c; induction s as [|d s IH]; intros c.
  - simpl. unfold attempt. rewrite Hp. simpl. now rewrite Hm.
  - simpl. unfold attempt. rewrite Hp. simpl. rewrite Hm. simpl.
    now rewrite IH.
Qed.

Lemma exec_anchored r s :
  pattern re = Bol :: r -> flag_m re = false ->
  exec re s =
  match attempt re None s with
  | Some (rest, caps) =>
      Some (Found [] (firstn (length s - length rest) s) caps rest)
  | None => None
  end.
Proof.
  intros Hp Hm. unfold exec. destruct s as [|c s]; simpl.
  - destruct (attempt re None []) as [[? ?]|]; reflexivity.
  - destruct (attempt re None (c :: s)) as [[? ?]|]; [reflexivity|].
    now rewrite (scan_anchored r c s Hp Hm).
Qed.
End MatcherFacts.

(** * Facts about the characters of the patterns *)

Lemma lineTerminator_space c : isLineTerminator c = true -> isSpace c = true.
Proof.
  unfold isLineTerminator. intros H.
  repeat (apply orb_prop in H as [H|H]); apply N.eqb_eq in H; subst; reflexivity.
Qed.

Lemma canonicalize_fixed c a :
  (a < 65 \/ 90 < a < 97 \/ 122 < a)%N -> canonicalize c = a <-> c = a.
Proof.
  intros Ha. unfold canonicalize.
  destruct ((97 <=? c)%N && (c <=? 122)%N) eqn:E.
  - apply andb_prop in E as [E1 E2].
    apply N.leb_le in E1, E2. split; intros H; lia.
  - tauto.
Qed.

Lemma canonicalize_x c : N.eqb (canonicalize c) (canonicalize 120) = isX c.
Proof.
  unfold isX. change (canonicalize 120) with 88%N. unfold canonicalize.
  destruct ((97 <=? c)%N && (c <=? 122)%N) eqn:E.
  - apply andb_prop in E as [E1 E2]. apply N.leb_le in E1, E2.
    destruct (N.eqb_spec c 120), (N.eqb_spec c 88), (N.eqb_spec (c - 32) 88);
      simpl; try reflexivity; lia.
  - destruct (N.eqb_spec c 120) as [->|]; [discriminate E|]. reflexivity.
Qed.

Section PatternChars.
Variable re : regex.

Lemma match_dot c : cls_match re Dot c = notLT c.
Proof. reflexivity. Qed.

(** The flag [i] makes no difference to [-], [[] and []]. *)
Lemma match_punct a c :
  (a < 65 \/ 90 < a < 97 \/ 122 < a)%N -> cls_match re (Lit a) c = N.eqb c a.
Proof.
  intros Ha. simpl. destruct (flag_i re); [|reflexivity].
  rewrite (proj2 (canonicalize_fixed a a Ha) eq_refl).
  destruct (N.eqb_spec c a) as [->|Hn].
  - rewrite (proj2 (canonicalize_fixed a a Ha) eq_refl). apply N.eqb_refl.
  - apply N.eqb_neq. intros H. apply Hn. now apply (canonicalize_fixed c a Ha).
Qed.

Lemma match_x c : flag_i re = true -> cls_match re (Lit 120) c = isX c.
Proof. intros H. simpl. rewrite H. apply canonicalize_x. Qed.

End PatternChars.

(** * The checkbox prefix, read from the left *)

Lemma firstn_takeWhile (f : char -> bool) (s : str) :
  firstn (length s - length (dropWhile f s)) s = takeWhile f s.
Proof.
  rewrite <- (take_drop_while f s) at 1 3.
  rewrite length_app.
  replace (_ + _ - _) with (length (takeWhile f s) + 0) by lia.
  rewrite firstn_app_2. simpl. apply app_nil_r.
Qed.

Section Prefix.
Variable re : regex.

Lemma star_space_punct a r op caps s prev :
  (a < 65 \/ 90 < a < 97 \/ 122 < a)%N -> isSpace a = false ->
  run re (ws :: One (Lit a) :: r) prev s op caps =
  match dropWhile isSpace s with
  | c :: s' => if N.eqb c a then run re r (Some c) s' op caps else None
  | [] => None
  end.
Proof.
  intros Ha Hs. unfold ws. rewrite star_exact.
  - change (cls_match re Space) with isSpace. rewrite run_One.
    destruct (dropWhile isSpace s) as [|c s']; [reflexivity|].
    now rewrite match_punct.
  - intros c s0 p Hc. rewrite run_One, match_punct by assumption.
    destruct (N.eqb_spec c a) as [->|]; [|reflexivity].
    change (isSpace a = true) in Hc. congruence.
Qed.

Lemma run_dash r op caps s prev :
  run re (ws :: One (lit "-") :: ws :: One (lit "[") :: r) prev s op caps =
  match afterDash s with
  | Some s2 => run re r (Some 91%N) s2 op caps
  | None => None
  end.
Proof.
  change (lit "-") with (Lit 45). change (lit "[") with (Lit 91).
  unfold afterDash. rewrite star_space_punct by (try reflexivity; lia).
  destruct (dropWhile isSpace s) as [|c s1]; [reflexivity|].
  destruct (N.eqb c 45); [|reflexivity].
  rewrite star_space_punct by (try reflexivity; lia).
  destruct (dropWhile isSpace s1) as [|c1 s2]; [reflexivity|].
  destruct (N.eqb_spec c1 91) as [->|]; reflexivity.
Qed.

Lemma run_indent_dash r op caps s prev :
  run re (Open :: ws :: Close :: One (lit "-") :: ws :: One (lit "[") :: r)
      prev s op caps =
  match afterDash s with
  | Some s2 => run re r (Some 91%N) s2 s (caps ++ [takeWhile isSpace s])
  | None => None
  end.
Proof.
  change (lit "-") with (Lit 45). change (lit "[") with (Lit 91).
  rewrite run_Open. unfold ws. rewrite star_exact.
  - change (cls_match re Space) with isSpace.
    rewrite run_Close, firstn_takeWhile.
    unfold afterDash.
    destruct (dropWhile isSpace s) as [|c s1] eqn:E; [reflexivity|].
    rewrite run_One, match_punct by lia.
    destruct (N.eqb c 45); [|reflexivity].
    fold ws. rewrite star_space_punct by (try reflexivity; lia).
    destruct (dropWhile isSpace s1) as [|c1 s2]; [reflexivity|].
    destruct (N.eqb_spec c1 91) as [->|]; reflexivity.
  - intros c s0 p Hc. rewrite run_Close, run_One, match_punct by lia.
    destruct (N.eqb_spec c 45) as [->|]; [|reflexivity].
    change (isSpace 45 = true) in Hc. discriminate Hc.
Qed.

Lemma run_emptyBox r op caps s2 prev :
  run re (ws :: One (lit "]") :: r) prev s2 op caps =
  match afterEmptyBox s2 with
  | Some s3 => run re r (Some 93%N) s3 op caps
  | None => None
  end.
Proof.
  change (lit "]") with (Lit 93).
  unfold afterEmptyBox. rewrite star_space_punct by (try reflexivity; lia).
  destruct (dropWhile isSpace s2) as [|c s3]; [reflexivity|].
  destruct (N.eqb_spec c 93) as [->|]; reflexivity.
Qed.

Lemma run_tickedBox r op caps s2 prev :
  flag_i re = true ->
  run re (One (lit "x") :: One (lit "]") :: r) prev s2 op caps =
  match afterTickedBox s2 with
  | Some s3 => run re r (Some 93%N) s3 op caps
  | None => None
  end.
Proof.
  intros Hi. change (lit "x") with (Lit 120). change (lit "]") with (Lit 93).
  unfold afterTickedBox. rewrite run_One.
  destruct s2 as [|x s2]; [reflexivity|].
  rewrite match_x by assumption. rewrite run_One.
  destruct s2 as [|c2 s3]; [now destruct (isX x)|].
  rewrite match_punct by lia.
  destruct (isX x); [|reflexivity]. simpl.
  destruct (N.eqb_spec c2 93) as [->|]; reflexivity.
Qed.
End Prefix.

(** * What follows the prefix *)

Section Tails.
Variable re : regex.

(** [\s*] at the end of a pattern takes the whole run. *)
Lemma tail_space prev s op caps :
  run re [ws] prev s op caps = Some (dropWhile isSpace s, caps).
Proof. unfold ws. apply star_commit. reflexivity. Qed.

(** [.+] followed by [$] reads to the end of an input without line
    terminators. *)
Lemma plus_dot_all r c u op caps prev res :
  forallb notLT (c :: u) = true ->
  run re r (prevAfter (Some c) u) [] op caps = Some res ->
  run re (Plus Dot :: r) prev (c :: u) op caps = Some res.
Proof.
  intros Hall Hr. simpl in Hall. apply andb_prop in Hall as [Hc Hu].
  rewrite run_Plus, run_One, match_dot, Hc.
  apply star_commit. change (cls_match re Dot) with notLT.
  now rewrite (takeWhile_all_id _ _ Hu), (dropWhile_all_nil _ _ Hu).
Qed.

(** The renderer's tail [\s* ( .+ ) $] on a text that starts after the
    spaces and has no line terminator. *)
Lemma line_tail_complete prev s3 op caps c u :
  dropWhile isSpace s3 = c :: u -> forallb notLT (c :: u) = true ->
  run re [ws; Open; Plus Dot; Close; Eol] prev s3 op caps =
  Some ([], caps ++ [c :: u]).
Proof.
  intros Hd Hall. unfold ws. apply star_commit.
  change (cls_match re Space) with isSpace. rewrite Hd, run_Open.
  apply plus_dot_all; [assumption|].
  rewrite run_Close, run_Eol. cbn [atEol run].
  rewrite firstn_all2; [reflexivity | simpl; lia].
Qed.

(** Whatever the renderer's tail matches, the text it captures reaches the
    end of the line, holds no line terminator, and starts inside, or right
    after, the spaces. *)
Lemma line_tail_sound prev s3 op caps rest caps' :
  flag_m re = false ->
  run re [ws; Open; Plus Dot; Close; Eol] prev s3 op caps = Some (rest, caps') ->
  exists txt, caps' = caps ++ [txt] /\ rest = [] /\ txt <> [] /\
              forallb notLT txt = true /\
              dropWhile isSpace txt = dropWhile isSpace s3.
Proof.
  intros Hm H. unfold ws in H. apply star_split in H as (n & Hn & H).
  rewrite run_Open, run_Plus, run_One in H.
  destruct (skipn n s3) as [|c u] eqn:E; [discriminate|].
  destruct (cls_match re Dot c) eqn:Ec; [|discriminate].
  apply star_split in H as (j & Hj & H).
  rewrite run_Close, run_Eol in H.
  destruct (skipn j u) as [|d u'] eqn:Eu.
  - cbn [atEol run] in H. injection H as <- <-.
    exists (c :: u). rewrite firstn_all2 by (simpl; lia).
    repeat split; [discriminate | |].
    + simpl. rewrite <- match_dot with (re := re), Ec. simpl.
      apply takeWhile_full. change (cls_match re Dot) with notLT in Hj.
      assert (length (skipn j u) = 0) by now rewrite Eu.
      rewrite length_skipn in *. lia.
    + rewrite <- E. now apply dropWhile_skipn.
  - simpl in H. rewrite Hm in H. discriminate.
Qed.

(** The counters' tail [\s* .+ $] under the [m] flag, on a line whose text
    starts after the spaces: the match ends with the line. *)
Lemma count_tail_complete prev s3 t op caps c u :
  flag_m re = true ->
  dropWhile isSpace s3 = c :: u -> forallb notLT (c :: u) = true ->
  t = [] \/ (exists t', t = LF :: t') ->
  run re [ws; Plus Dot; Eol] prev (s3 ++ t) op caps = Some (t, caps).
Proof.
  intros Hm Hd Hall Ht. unfold ws. apply star_commit.
  change (cls_match re Space) with isSpace.
  rewrite (dropWhile_app_cons _ _ t Hd).
  simpl in Hall. apply andb_prop in Hall as [Hc Hu].
  rewrite run_Plus, run_One, match_dot, Hc.
  apply star_commit. change (cls_match re Dot) with notLT.
  assert (Hdrop : dropWhile notLT (u ++ t) = t).
  { rewrite dropWhile_app_all by assumption.
    destruct Ht as [->|[t' ->]]; reflexivity. }
  rewrite Hdrop, run_Eol.
  destruct Ht as [->|[t' ->]]; simpl; [reflexivity | now rewrite Hm].
Qed.
End Tails.

(** * The two tests of the toggle handler *)

Lemma attempt_toggleUnchecked l :
  attempt reToggleUnchecked None l =
  match afterUnchecked l with
  | Some s3 => Some (dropWhile isSpace s3, [takeWhile isSpace l])
  | None => None
  end.
Proof.
  unfold attempt, reToggleUnchecked, afterUnchecked. cbn [pattern].
  rewrite run_Bol. cbn [atBol]. rewrite run_indent_dash.
  destruct (afterDash l) as [s2|]; [|reflexivity].
  rewrite run_emptyBox.
  destruct (afterEmptyBox s2) as [s3|]; [|reflexivity].
  apply tail_space.
Qed.

Lemma attempt_toggleChecked l :
  attempt reToggleChecked None l =
  match afterChecked l with
  | Some s3 => Some (dropWhile isSpace s3, [takeWhile isSpace l])
  | None => None
  end.
Proof.
  unfold attempt, reToggleChecked, afterChecked. cbn [pattern].
  rewrite run_Bol. cbn [atBol]. rewrite run_indent_dash.
  destruct (afterDash l) as [s2|]; [|reflexivity].
  rewrite run_tickedBox by reflexivity.
  destruct (afterTickedBox s2) as [s3|]; [|reflexivity].
  apply tail_space.
Qed.

Lemma test_toggleUnchecked l : test reToggleUnchecked l = isSome (afterUnchecked l).
Proof.
  unfold test. rewrite (exec_anchored reToggleUnchecked _ l eq_refl eq_refl).
  rewrite attempt_toggleUnchecked. now destruct (afterUnchecked l).
Qed.

Lemma test_toggleChecked l : test reToggleChecked l = isSome (afterChecked l).
Proof.
  unfold test. rewrite (exec_anchored reToggleChecked _ l eq_refl eq_refl).
  rewrite attempt_toggleChecked. now destruct (afterChecked l).
Qed.

Lemma replace_toggleUnchecked l s3 :
  afterUnchecked l = Some s3 ->
  replace reToggleUnchecked tplChecked l =
  takeWhile isSpace l ++ js "- [x] " ++ dropWhile isSpace s3.
Proof.
  intros H. unfold replace.
  rewrite (exec_anchored reToggleUnchecked _ l eq_refl eq_refl).
  rewrite attempt_toggleUnchecked, H. unfold expand, tplChecked. simpl.
  now rewrite <- app_assoc.
Qed.

Lemma replace_toggleChecked l s3 :
  afterChecked l = Some s3 ->
  replace reToggleChecked tplUnchecked l =
  takeWhile isSpace l ++ js "- [ ] " ++ dropWhile isSpace s3.
Proof.
  intros H. unfold replace.
  rewrite (exec_anchored reToggleChecked _ l eq_refl eq_refl).
  rewrite attempt_toggleChecked, H. unfold expand, tplUnchecked. simpl.
  now rewrite <- app_assoc.
Qed.

(** [undefined] reads as the text "undefined", which has no prefix. *)
Lemma toggleLines_undefined lines i :
  array_get lines i = None -> toggleLines lines i = Some lines.
Proof. intros H. unfold toggleLines. rewrite H. reflexivity. Qed.

Lemma toggleLines_line lines i l :
  array_get lines i = Some l ->
  toggleLines lines i =
  Some (if hasCheckboxPrefix l then array_set lines i (toggledLine l) else lines).
Proof.
  intros H. unfold toggleLines, hasCheckboxPrefix, toggledLine.
  rewrite H. cbn [toString].
  rewrite test_toggleUnchecked, test_toggleChecked.
  destruct (afterUnchecked l) as [s3|] eqn:EU; simpl.
  - now rewrite (replace_toggleUnchecked l s3 EU).
  - destruct (afterChecked l) as [s3|] eqn:EC; simpl; [|reflexivity].
    now rewrite (replace_toggleChecked l s3 EC).
Qed.

(** * Lines: [split] and [join] *)

Lemma split_cons s : exists l ls, split s = l :: ls.
Proof.
  induction s as [|c s (l & ls & IH)]; simpl; [eauto|].
  destruct (N.eqb c LF); [eauto|]. rewrite IH; eauto.
Qed.

Lemma join_cons l l' ls : join (l :: l' :: ls) = l ++ LF :: join (l' :: ls).
Proof. reflexivity. Qed.

Lemma join_split s : join (split s) = s.
Proof.
  induction s as [|c s IH]; [reflexivity|]. simpl.
  destruct (split_cons s) as (l & ls & E). rewrite E in *.
  destruct (N.eqb_spec c LF) as [->|_].
  - rewrite join_cons, IH. reflexivity.
  - destruct ls as [|l' ls]; simpl in *; now rewrite IH.
Qed.

Lemma split_noLF s : Forall noLF (split s).
Proof.
  induction s as [|c s IH]; simpl.
  - constructor; [intros [] | constructor].
  - destruct (N.eqb_spec c LF) as [->|Hc].
    + constructor; [intros [] | assumption].
    + destruct (split s) as [|l ls]; inversion IH; subst;
        constructor; try assumption; try constructor;
        intros [H|H]; try contradiction; congruence.
Qed.

Lemma split_line l : noLF l -> split l = [l].
Proof.
  induction l as [|c l IH]; intros H; [reflexivity|]. simpl.
  destruct (N.eqb_spec c LF) as [->|_]; [exfalso; apply H; now left|].
  rewrite IH; [reflexivity | intros Hin; apply H; now right].
Qed.

Lemma split_app l s : noLF l -> split (l ++ LF :: s) = l :: split s.
Proof.
  induction l as [|c l IH]; intros H; [reflexivity|]. simpl.
  destruct (N.eqb_spec c LF) as [->|_]; [exfalso; apply H; now left|].
  rewrite IH; [reflexivity | intros Hin; apply H; now right].
Qed.

Lemma split_join ls : ls <> [] -> Forall noLF ls -> split (join ls) = ls.
Proof.
  induction ls as [|l ls IH]; intros Hne H; [contradiction|].
  inversion H as [|? ? Hl Hls]; subst.
  destruct ls as [|l' ls]; [now apply split_line|].
  rewrite join_cons, split_app by assumption.
  rewrite IH; [reflexivity | discriminate | assumption].
Qed.

(** * Array reads and writes *)

Lemma array_get_nth lines (i : nat) : array_get lines (Z.of_nat i) = nth_error lines i.
Proof.
  unfold array_get. destruct (Z.ltb_spec (Z.of_nat i) 0); [lia|].
  now rewrite Nat2Z.id.
Qed.

Lemma array_get_outside lines i :
  (i < 0 \/ Z.of_nat (length lines) <= i)%Z -> array_get lines i = None.
Proof.
  intros H. unfold array_get. destruct (Z.ltb_spec i 0); [reflexivity|].
  apply nth_error_None. lia.
Qed.

Lemma array_get_inside lines i l :
  array_get lines i = Some l ->
  exists n, i = Z.of_nat n /\ nth_error lines n = Some l.
Proof.
  unfold array_get. destruct (Z.ltb_spec i 0) as [Hi|Hi]; [discriminate|].
  intros Hl. exists (Z.to_nat i); split; [lia | assumption].
Qed.

Lemma set_nth_length lines n v :
  n < length lines -> length (set_nth lines n v) = length lines.
Proof.
  revert n; induction lines as [|l ls IH]; intros n H; simpl in *; [lia|].
  destruct n; simpl; [reflexivity|]. rewrite IH; lia.
Qed.

Lemma set_nth_same lines n v :
  n < length lines -> nth_error (set_nth lines n v) n = Some v.
Proof.
  revert n; induction lines as [|l ls IH]; intros n H; simpl in *; [lia|].
  destruct n; simpl; [reflexivity|]. apply IH; lia.
Qed.

Lemma set_nth_other lines n v j :
  n < length lines -> j <> n -> nth_error (set_nth lines n v) j = nth_error lines j.
Proof.
  revert n j; induction lines as [|l ls IH]; intros n j H Hj; simpl in *; [lia|].
  destruct n, j; simpl; try reflexivity; try lia. apply IH; lia.
Qed.

Lemma set_nth_Forall (P : str -> Prop) lines n v :
  n < length lines -> Forall P lines -> P v -> Forall P (set_nth lines n v).
Proof.
  revert n; induction lines as [|l ls IH]; intros n H HP Hv; simpl in *; [lia|].
  inversion HP; subst.
  destruct n; simpl; constructor; try assumption. apply IH; [lia | assumption..].
Qed.

(** * The toggled line *)

Lemma takeWhile_incl (f : char -> bool) l : incl (takeWhile f l) l.
Proof.
  intros c H. rewrite <- (take_drop_while f l). apply in_or_app; now left.
Qed.

Lemma dropWhile_incl (f : char -> bool) l : incl (dropWhile f l) l.
Proof.
  intros c H. rewrite <- (take_drop_while f l). apply in_or_app; now right.
Qed.

Lemma notLT_incl l l' : incl l' l -> forallb notLT l = true -> forallb notLT l' = true.
Proof.
  intros Hi H. rewrite forallb_forall in *. auto.
Qed.

Lemma afterDash_incl l s2 : afterDash l = Some s2 -> incl s2 l.
Proof.
  unfold afterDash.
  destruct (dropWhile isSpace l) as [|c s1] eqn:E1; [discriminate|].
  destruct (N.eqb c 45); [|discriminate].
  destruct (dropWhile isSpace s1) as [|c1 s2'] eqn:E2; [discriminate|].
  destruct (N.eqb c1 91); [|discriminate].
  intros H; injection H as <-. intros x Hx.
  apply (dropWhile_incl isSpace l). rewrite E1. right.
  apply (dropWhile_incl isSpace s1). rewrite E2. now right.
Qed.

Lemma afterEmptyBox_incl s2 s3 : afterEmptyBox s2 = Some s3 -> incl s3 s2.
Proof.
  unfold afterEmptyBox.
  destruct (dropWhile isSpace s2) as [|c s] eqn:E; [discriminate|].
  destruct (N.eqb c 93); [|discriminate].
  intros H; injection H as <-. intros x Hx.
  apply (dropWhile_incl isSpace s2). rewrite E. now right.
Qed.

Lemma afterTickedBox_incl s2 s3 : afterTickedBox s2 = Some s3 -> incl s3 s2.
Proof.
  unfold afterTickedBox. destruct s2 as [|x [|c s]]; try discriminate.
  destruct (isX x && N.eqb c 93); [|discriminate].
  intros H; injection H as <-. intros y Hy. now right; right.
Qed.

Lemma afterUnchecked_incl l s3 : afterUnchecked l = Some s3 -> incl s3 l.
Proof.
  unfold afterUnchecked. destruct (afterDash l) as [s2|] eqn:E; [|discriminate].
  intros H x Hx. apply (afterDash_incl _ _ E). now apply (afterEmptyBox_incl _ _ H).
Qed.

Lemma afterChecked_incl l s3 : afterChecked l = Some s3 -> incl s3 l.
Proof.
  unfold afterChecked. destruct (afterDash l) as [s2|] eqn:E; [|discriminate].
  intros H x Hx. apply (afterDash_incl _ _ E). now apply (afterTickedBox_incl _ _ H).
Qed.

Lemma rewritten_noLF l marker s3 :
  noLF l -> noLF marker -> incl s3 l ->
  noLF (takeWhile isSpace l ++ marker ++ dropWhile isSpace s3).
Proof.
  intros Hl Hm Hs H.
  apply in_app_or in H as [H|H]; [now apply takeWhile_incl in H|].
  apply in_app_or in H as [H|H]; [contradiction|].
  apply dropWhile_incl in H. auto.
Qed.

Lemma toggledLine_noLF l : noLF l -> noLF (toggledLine l).
Proof.
  intros Hl. unfold toggledLine.
  destruct (afterUnchecked l) as [s3|] eqn:EU.
  - apply rewritten_noLF; [assumption | | now apply afterUnchecked_incl].
    intros H; simpl in H; intuition discriminate.
  - destruct (afterChecked l) as [s3|] eqn:EC; [|assumption].
    apply rewritten_noLF; [assumption | | now apply afterChecked_incl].
    intros H; simpl in H; intuition discriminate.
Qed.

(** A ticked box is no empty box. *)
Lemma afterChecked_not_unchecked l s3 :
  afterChecked l = Some s3 -> afterUnchecked l = None.
Proof.
  unfold afterChecked, afterUnchecked.
  destruct (afterDash l) as [s2|]; [|reflexivity].
  unfold afterTickedBox, afterEmptyBox.
  destruct s2 as [|x [|c s]]; try discriminate.
  destruct (isX x) eqn:Ex; [|discriminate]. intros _.
  unfold isX in Ex. apply orb_prop in Ex as [Ex|Ex]; apply N.eqb_eq in Ex; subst;
    reflexivity.
Qed.

(** The content after a toggle, line by line. *)
Lemma toggleContent_spec content i :
  toggleContent content i =
  Some (join (match array_get (split content) i with
              | Some l => if hasCheckboxPrefix l
                          then array_set (split content) i (toggledLine l)
                          else split content
              | None => split content
              end)).
Proof.
  unfold toggleContent.
  destruct (array_get (split content) i) as [l|] eqn:E.
  - now rewrite (toggleLines_line _ _ _ E).
  - now rewrite (toggleLines_undefined _ _ E).
Qed.

Lemma split_toggled content (n : nat) l :
  nth_error (split content) n = Some l ->
  split (join (array_set (split content) (Z.of_nat n) (toggledLine l))) =
  set_nth (split content) n (toggledLine l).
Proof.
  intros H. assert (Hn : n < length (split content)).
  { apply nth_error_Some. congruence. }
  unfold array_set. destruct (Z.ltb_spec (Z.of_nat n) 0); [lia|].
  rewrite Nat2Z.id. apply split_join.
  - intros E. apply (f_equal (@length str)) in E.
    rewrite set_nth_length in E by assumption. simpl in E. lia.
  - apply set_nth_Forall; [assumption | apply split_noLF |].
    apply toggledLine_noLF.
    pose proof (split_noLF content) as Hall.
    rewrite Forall_forall in Hall. apply Hall. eapply nth_error_In; eassumption.
Qed.

(** * The renderer's task lines *)

Lemma attempt_uncheckedLine l :
  attempt reUncheckedLine None l =
  match afterUnchecked l with
  | Some s3 => run reUncheckedLine [ws; Open; Plus Dot; Close; Eol] (Some 93%N)
                   s3 l [takeWhile isSpace l]
  | None => None
  end.
Proof.
  unfold attempt, afterUnchecked.
  change (pattern reUncheckedLine) with
    (Bol :: Open :: ws :: Close :: One (lit "-") :: ws :: One (lit "[")
         :: ws :: One (lit "]") :: [ws; Open; Plus Dot; Close; Eol]).
  rewrite run_Bol. cbn [atBol]. rewrite run_indent_dash.
  destruct (afterDash l) as [s2|]; [|reflexivity].
  rewrite run_emptyBox. reflexivity.
Qed.

Lemma attempt_checkedLine l :
  attempt reCheckedLine None l =
  match afterChecked l with
  | Some s3 => run reCheckedLine [ws; Open; Plus Dot; Close; Eol] (Some 93%N)
                   s3 l [takeWhile isSpace l]
  | None => None
  end.
Proof.
  unfold attempt, afterChecked.
  change (pattern reCheckedLine) with
    (Bol :: Open :: ws :: Close :: One (lit "-") :: ws :: One (lit "[")
         :: One (lit "x") :: One (lit "]") :: [ws; Open; Plus Dot; Close; Eol]).
  rewrite run_Bol. cbn [atBol]. rewrite run_indent_dash.
  destruct (afterDash l) as [s2|]; [|reflexivity].
  rewrite run_tickedBox by reflexivity. reflexivity.
Qed.

(** What the renderer shows of an unchecked line: the leading whitespace as
    indentation, and a text that is the rest of the line from inside, or
    right after, the whitespace that follows the box. *)
Lemma uncheckedMatch_sound l indent text :
  uncheckedMatch l = Some (indent, text) ->
  indent = takeWhile isSpace l /\ forallb notLT text = true /\
  exists s3, afterUnchecked l = Some s3 /\
             dropWhile isSpace text = dropWhile isSpace s3.
Proof.
  unfold uncheckedMatch, line_match.
  rewrite (exec_anchored reUncheckedLine _ l eq_refl eq_refl), attempt_uncheckedLine.
  destruct (afterUnchecked l) as [s3|]; [|discriminate].
  destruct (run _ _ _ s3 l _) as [[rest caps]|] eqn:R; [|discriminate].
  apply line_tail_sound in R as (txt & -> & _ & _ & Hn & Hd); [|reflexivity].
  cbn [groups nth app]. intros H; injection H as <- <-. eauto.
Qed.

Lemma checkedMatch_sound l indent text :
  checkedMatch l = Some (indent, text) ->
  indent = takeWhile isSpace l /\ forallb notLT text = true /\
  exists s3, afterChecked l = Some s3 /\
             dropWhile isSpace text = dropWhile isSpace s3.
Proof.
  unfold checkedMatch, line_match.
  rewrite (exec_anchored reCheckedLine _ l eq_refl eq_refl), attempt_checkedLine.
  destruct (afterChecked l) as [s3|]; [|discriminate].
  destruct (run _ _ _ s3 l _) as [[rest caps]|] eqn:R; [|discriminate].
  apply line_tail_sound in R as (txt & -> & _ & _ & Hn & Hd); [|reflexivity].
  cbn [groups nth app]. intros H; injection H as <- <-. eauto.
Qed.



Lemma toggledLine_plain l : hasCheckboxPrefix l = false -> toggledLine l = l.
Proof.
  unfold hasCheckboxPrefix, toggledLine.
  destruct (afterUnchecked l); [discriminate|].
  destruct (afterChecked l); [discriminate | reflexivity].
Qed.

Lemma toggledAt_line content i l :
  nth_error (split content) i = Some l ->
  toggledAt content i = Some (toggledLine l).
Proof.
  intros H. unfold toggledAt.
  rewrite toggleContent_spec, array_get_nth, H.
  destruct (hasCheckboxPrefix l) eqn:E.
  - rewrite (split_toggled _ _ _ H). apply set_nth_same.
    apply nth_error_Some. congruence.
  - now rewrite join_split, toggledLine_plain.
Qed.

(** The handler's tests seen from the line. *)
Lemma hasCheckboxPrefix_tests l :
  hasCheckboxPrefix l = test reToggleUnchecked l || test reToggleChecked l.
Proof. now rewrite test_toggleUnchecked, test_toggleChecked. Qed.

(** The second toggle of a line the first toggle ticked. *)
Lemma toggledLine_ticked indent rest :
  forallb isSpace indent = true ->
  dropWhile isSpace rest = rest ->
  toggledLine (indent ++ js "- [x] " ++ rest) = indent ++ js "- [ ] " ++ rest.
Proof.
  intros Hi Hr. unfold toggledLine, afterUnchecked, afterChecked, afterDash.
  rewrite dropWhile_app_all by assumption.
  rewrite takeWhile_app_all by assumption.
  cbn. rewrite Hr. now rewrite app_nil_r.
Qed.

Lemma dropWhile_idem (f : char -> bool) s :
  dropWhile f (dropWhile f s) = dropWhile f s.
Proof.
  destruct (dropWhile f s) as [|c u] eqn:E; [reflexivity|].
  apply dropWhile_head in E. simpl. now rewrite E.
Qed.

(** What the renderer shows of a line in the form the handler writes. *)
Lemma afterDash_canonical indent box rest :
  forallb isSpace indent = true ->
  afterDash (indent ++ 45%N :: 32%N :: 91%N :: box ++ rest) = Some (box ++ rest).
Proof.
  intros Hi. unfold afterDash. now rewrite dropWhile_app_all by assumption.
Qed.






(** The shape of a line with a prefix. *)
Lemma afterDash_shape l s2 :
  afterDash l = Some s2 ->
  exists w1, forallb isSpace w1 = true /\
             l = takeWhile isSpace l ++ 45%N :: w1 ++ 91%N :: s2.
Proof.
  unfold afterDash. intros H.
  pose proof (take_drop_while isSpace l) as Hl.
  destruct (dropWhile isSpace l) as [|c l1]; [discriminate|].
  destruct (N.eqb_spec c 45) as [->|]; [|discriminate].
  pose proof (take_drop_while isSpace l1) as Hl1.
  destruct (dropWhile isSpace l1) as [|c1 l2]; [discriminate|].
  destruct (N.eqb_spec c1 91) as [->|]; [|discriminate].
  injection H as H. subst s2. exists (takeWhile isSpace l1).
  split; [apply takeWhile_all|].
  rewrite <- Hl at 1. do 2 f_equal. symmetry. exact Hl1.
Qed.

Lemma afterEmptyBox_shape s2 s3 :
  afterEmptyBox s2 = Some s3 ->
  exists w2, forallb isSpace w2 = true /\ s2 = w2 ++ 93%N :: s3.
Proof.
  unfold afterEmptyBox. intros H.
  pose proof (take_drop_while isSpace s2) as Hs.
  destruct (dropWhile isSpace s2) as [|c l]; [discriminate|].
  destruct (N.eqb_spec c 93) as [->|]; [|discriminate].
  injection H as H. subst s3. exists (takeWhile isSpace s2).
  split; [apply takeWhile_all | now symmetry].
Qed.

Lemma afterTickedBox_shape s2 s3 :
  afterTickedBox s2 = Some s3 ->
  exists x, isX x = true /\ s2 = x :: 93%N :: s3.
Proof.
  unfold afterTickedBox. destruct s2 as [|x [|c l]]; try discriminate.
  destruct (isX x) eqn:Ex; [|discriminate].
  destruct (N.eqb_spec c 93) as [->|]; [|discriminate].
  intros H; injection H as <-. eauto.
Qed.

Lemma space_head c w : forallb isSpace (c :: w) = true -> isSpace c = true.
Proof. simpl. intros H. now apply andb_prop in H as [H _]. Qed.

(** The handler never writes back the line it read. *)
Lemma toggledLine_changes l : hasCheckboxPrefix l = true -> toggledLine l <> l.
Proof.
  unfold hasCheckboxPrefix, toggledLine, afterUnchecked, afterChecked.
  destruct (afterDash l) as [s2|] eqn:ED; [|discriminate].
  apply afterDash_shape in ED as (w1 & Hw1 & Hl).
  remember (takeWhile isSpace l) as tw eqn:Etw. clear Etw.
  destruct (afterEmptyBox s2) as [s3|] eqn:EU.
  - intros _ H. apply afterEmptyBox_shape in EU as (w2 & Hw2 & ->).
    rewrite Hl in H. apply app_inv_head in H. cbn in H. injection H as H.
    destruct w1 as [|a [|b w1]]; cbn in H; try discriminate.
    + injection H as _ H.
      destruct w2 as [|d w2]; cbn in H; [discriminate|].
      injection H as Hd _. subst d. apply space_head in Hw2.
      vm_compute in Hw2. discriminate.
    + injection H as _ Hb _. subst b. simpl in Hw1.
      rewrite andb_comm in Hw1. discriminate.
  - destruct (afterTickedBox s2) as [s3|] eqn:EC; [|discriminate].
    intros _ H. apply afterTickedBox_shape in EC as (x & Hx & ->).
    rewrite Hl in H. apply app_inv_head in H. cbn in H. injection H as H.
    destruct w1 as [|a [|b w1]]; cbn in H; try discriminate.
    + injection H as _ Hx' _. subst x. vm_compute in Hx. discriminate.
    + injection H as _ Hb _. subst b. simpl in Hw1.
      rewrite andb_comm in Hw1. discriminate.
Qed.


Lemma toggleContent_total content i : exists c, toggleContent content i = Some c.
Proof. rewrite toggleContent_spec. eauto. Qed.

(** * The claims about the toggle handler *)







(** C3, as amended.  The toggle returns the content it was given exactly
    when the line at the index does not begin with a checkbox prefix:
    whitespace, a dash, whitespace, and a bracket pair that holds only
    whitespace or one x of either case. *)
Theorem toggle_without_prefix content i line :
  nth_error (split content) i = Some line ->
  (toggleContent content (Z.of_nat i) = Some content <->
   hasCheckboxPrefix line = false).
Proof.
  intros Hl. split.
  - intros H. pose proof (toggledAt_line _ _ _ Hl) as Ht.
    unfold toggledAt in Ht. rewrite H, Hl in Ht. injection Ht as Ht.
    destruct (hasCheckboxPrefix line) eqn:E; [|reflexivity].
    now elim (toggledLine_changes _ E).
  - intros Hp. rewrite toggleContent_spec, array_get_nth, Hl, Hp.
    now rewrite join_split.
Qed.

Lemma toggle_without_prefix_witness :
  toggleContent (js "# Todo" ++ LF :: js "- [ ] A") 0
  = Some (js "# Todo" ++ LF :: js "- [ ] A").
Proof.
  exact (proj2 (toggle_without_prefix (js "# Todo" ++ LF :: js "- [ ] A") 0
                  (js "# Todo") eq_refl) eq_refl).
Defined.

(** C3 as the spec states it fails: the line [- [ ]] has no text, so it is
    no task line and the renderer gives it no box, yet the handler rewrites
    it. *)
Lemma toggle_rewrites_bare_box :
  nth_error (split (js "- [ ]")) 0 = Some (js "- [ ]") /\
  isTaskLine (js "- [ ]") = false /\
  toggleContent (js "- [ ]") 0 = Some (js "- [x] ") /\
  toggleContent (js "- [ ]") 0 <> Some (js "- [ ]").
Proof. repeat split; try reflexivity. discriminate. Qed.

(** C9.  The toggle never fails; the content it returns has as many lines as
    the content it was given, and every line but the one at the index is the
    same. *)
Theorem toggle_frame content (i : Z) :
  exists content',
    toggleContent content i = Some content' /\
    length (split content') = length (split content) /\
    forall j, Z.of_nat j <> i ->
              nth_error (split content') j = nth_error (split content) j.
Proof.
  rewrite toggleContent_spec. eexists; split; [reflexivity|].
  destruct (array_get (split content) i) as [l|] eqn:E.
  - apply array_get_inside in E as (n & -> & Hn).
    assert (Hlt : n < length (split content)) by (apply nth_error_Some; congruence).
    destruct (hasCheckboxPrefix l).
    + rewrite (split_toggled _ _ _ Hn). split.
      * now apply set_nth_length.
      * intros j Hj. apply set_nth_other; [assumption | lia].
    + rewrite join_split. auto.
  - rewrite join_split. auto.
Qed.

Lemma toggle_frame_witness :
  exists content',
    toggleContent (js "a" ++ LF :: js "- [ ] b") 1 = Some content' /\
    length (split content') = length (split (js "a" ++ LF :: js "- [ ] b")) /\
    forall j, Z.of_nat j <> 1%Z ->
              nth_error (split content') j =
              nth_error (split (js "a" ++ LF :: js "- [ ] b")) j.
Proof. exact (toggle_frame (js "a" ++ LF :: js "- [ ] b") 1). Defined.

(** C10.  At an index that is negative or past the last line the handler
    does not throw and hands back the content it was given. *)
Theorem toggle_out_of_range st (i : Z) :
  (i < 0 \/ Z.of_nat (length (split (localContent st))) <= i)%Z ->
  toggleContent (localContent st) i = Some (localContent st) /\
  handleToggleTask st i = Some (st, [onContentChange (localContent st)]).
Proof.
  intros H.
  assert (E : toggleContent (localContent st) i = Some (localContent st)).
  { rewrite toggleContent_spec, (array_get_outside _ _ H). now rewrite join_split. }
  split; [assumption|]. unfold handleToggleTask. rewrite E. now destruct st.
Qed.

Lemma toggle_out_of_range_witness :
  toggleContent (js "- [ ] A") (-1) = Some (js "- [ ] A") /\
  toggleContent (js "- [ ] A") 1 = Some (js "- [ ] A").
Proof.
  split.
  - apply (toggle_out_of_range {| mode := view; localContent := js "- [ ] A";
                                  showStats := true |} (-1)). left. lia.
  - apply (toggle_out_of_range {| mode := view; localContent := js "- [ ] A";
                                  showStats := true |} 1). right. simpl. lia.
Defined.

(** * The counters *)

Section NoGroups.
Variable re : regex.

(** Where the open group started matters to [Close] only. *)
Lemma run_op_irrelevant : forall r, noClose r = true ->
  forall prev s op op' caps,
    run re r prev s op caps = run re r prev s op' caps.
Proof.
  induction r as [|n r IH]; intros Hr prev s op op' caps; [reflexivity|].
  assert (Hstar : forall k, noClose r = true -> forall s prev,
               run re (Star k :: r) prev s op caps =
               run re (Star k :: r) prev s op' caps).
  { intros k Hk. induction s0 as [|c s0 IHs]; intros prev0.
    - rewrite !run_Star_nil. now apply IH.
    - rewrite !run_Star_cons, IHs, (IH Hk prev0 (c :: s0) op op' caps).
      reflexivity. }
  destruct n; simpl in Hr.
  - rewrite !run_Bol. destruct (atBol re prev); [now apply IH | reflexivity].
  - rewrite !run_Eol. destruct (atEol re s); [now apply IH | reflexivity].
  - rewrite !run_One. destruct s as [|c s]; [reflexivity|].
    destruct (cls_match re k c); [now apply IH | reflexivity].
  - now apply Hstar.
  - rewrite !run_Plus, !run_One. destruct s as [|c s]; [reflexivity|].
    destruct (cls_match re k c); [now apply Hstar | reflexivity].
  - rewrite !run_Open. reflexivity.
  - discriminate.
Qed.
End NoGroups.

Lemma attempt_countUnchecked prev s :
  attempt reCountUnchecked prev s =
  if atBol reCountUnchecked prev then
    match afterUnchecked s with
    | Some s3 => countTail reCountUnchecked s3
    | None => None
    end
  else None.
Proof.
  unfold attempt, afterUnchecked, countTail.
  change (pattern reCountUnchecked) with
    (Bol :: ws :: One (lit "-") :: ws :: One (lit "[") :: ws :: One (lit "]")
         :: [ws; Plus Dot; Eol]).
  rewrite run_Bol. destruct (atBol reCountUnchecked prev); [|reflexivity].
  rewrite run_dash. destruct (afterDash s) as [s2|]; [|reflexivity].
  rewrite run_emptyBox. destruct (afterEmptyBox s2) as [s3|]; [|reflexivity].
  now apply run_op_irrelevant.
Qed.

Lemma attempt_countChecked prev s :
  attempt reCountChecked prev s =
  if atBol reCountChecked prev then
    match afterChecked s with
    | Some s3 => countTail reCountChecked s3
    | None => None
    end
  else None.
Proof.
  unfold attempt, afterChecked, countTail.
  change (pattern reCountChecked) with
    (Bol :: ws :: One (lit "-") :: ws :: One (lit "[") :: One (lit "x")
         :: One (lit "]") :: [ws; Plus Dot; Eol]).
  rewrite run_Bol. destruct (atBol reCountChecked prev); [|reflexivity].
  rewrite run_dash. destruct (afterDash s) as [s2|]; [|reflexivity].
  rewrite run_tickedBox by reflexivity.
  destruct (afterTickedBox s2) as [s3|]; [|reflexivity].
  now apply run_op_irrelevant.
Qed.

(** ** Lines that are not bare boxes *)

Lemma bare_after_dash l c l1 :
  bareBox l = false -> dropWhile isSpace l = c :: l1 -> N.eqb c 45 = true ->
  dropWhile isSpace l1 <> [].
Proof.
  unfold bareBox. intros H E Hc. rewrite E, Hc in H. intros E1.
  rewrite E1 in H. discriminate.
Qed.

Lemma bare_in_box l l2 :
  bareBox l = false -> afterDash l = Some l2 -> dropWhile isSpace l2 <> [].
Proof.
  unfold bareBox, afterDash.
  destruct (dropWhile isSpace l) as [|c l1]; [discriminate|].
  destruct (N.eqb c 45); [|discriminate].
  destruct (dropWhile isSpace l1) as [|c1 l2']; [discriminate|].
  destruct (N.eqb c1 91); [|discriminate].
  intros H E; injection E as ->. intros E2. rewrite E2 in H. discriminate.
Qed.

Lemma bare_after_unchecked l l3 :
  bareBox l = false -> afterUnchecked l = Some l3 -> allSpace l3 = false.
Proof.
  unfold bareBox, afterUnchecked, afterDash, afterEmptyBox.
  destruct (dropWhile isSpace l) as [|c l1]; [discriminate|].
  destruct (N.eqb c 45); [|discriminate].
  destruct (dropWhile isSpace l1) as [|c1 l2]; [discriminate|].
  destruct (N.eqb c1 91); [|discriminate].
  destruct (dropWhile isSpace l2) as [|c2 l3']; [discriminate|].
  destruct (N.eqb c2 93); [|discriminate].
  intros H E; injection E as ->. simpl in H.
  apply orb_false_elim in H as [H _]. exact H.
Qed.

Lemma bare_after_checked l l3 :
  bareBox l = false -> afterChecked l = Some l3 -> allSpace l3 = false.
Proof.
  unfold bareBox, afterChecked, afterDash, afterTickedBox.
  destruct (dropWhile isSpace l) as [|c l1]; [discriminate|].
  destruct (N.eqb c 45); [|discriminate].
  destruct (dropWhile isSpace l1) as [|c1 l2]; [discriminate|].
  destruct (N.eqb c1 91); [|discriminate].
  destruct l2 as [|x [|c2 l3']]; try discriminate.
  destruct (isX x && N.eqb c2 93) eqn:E2; [|discriminate].
  intros H E; injection E as ->. simpl in H.
  apply orb_false_elim in H as [_ H]. exact H.
Qed.

Lemma allSpace_false_drop l : allSpace l = false -> dropWhile isSpace l <> [].
Proof.
  intros H E. apply dropWhile_nil_all in E. unfold allSpace in H. congruence.
Qed.

(** ** What follows a line does not change how the line is read *)

Lemma afterDash_blank l s :
  allSpace l = true -> afterDash (l ++ LF :: s) = afterDash s.
Proof.
  intros H. unfold afterDash. now rewrite (dropWhile_app_all _ _ _ H).
Qed.

Lemma afterDash_allSpace l : allSpace l = true -> afterDash l = None.
Proof. intros H. unfold afterDash. now rewrite (dropWhile_all_nil _ _ H). Qed.

Lemma afterDash_local l t :
  bareBox l = false -> allSpace l = false ->
  afterDash (l ++ t) = andThen t (afterDash l).
Proof.
  intros Hb Hs. apply allSpace_false_drop in Hs.
  destruct (dropWhile isSpace l) as [|c l1] eqn:E1; [contradiction|].
  unfold afterDash. rewrite (dropWhile_app_cons _ _ t E1), E1.
  destruct (N.eqb c 45) eqn:Ec; [|reflexivity].
  pose proof (bare_after_dash _ _ _ Hb E1 Ec) as H1.
  destruct (dropWhile isSpace l1) as [|c1 l2] eqn:E2; [contradiction|].
  rewrite (dropWhile_app_cons _ _ t E2).
  destruct (N.eqb c1 91); reflexivity.
Qed.

Lemma afterUnchecked_local l t :
  bareBox l = false -> allSpace l = false ->
  afterUnchecked (l ++ t) = andThen t (afterUnchecked l).
Proof.
  intros Hb Hs. unfold afterUnchecked. rewrite (afterDash_local _ _ Hb Hs).
  destruct (afterDash l) as [l2|] eqn:E; [|reflexivity]. simpl.
  pose proof (bare_in_box _ _ Hb E) as H2. unfold afterEmptyBox.
  destruct (dropWhile isSpace l2) as [|c2 l3] eqn:E2; [contradiction|].
  rewrite (dropWhile_app_cons _ _ t E2).
  destruct (N.eqb c2 93); reflexivity.
Qed.

Lemma afterChecked_local l t :
  lineEnd t -> bareBox l = false -> allSpace l = false ->
  afterChecked (l ++ t) = andThen t (afterChecked l).
Proof.
  intros Ht Hb Hs. unfold afterChecked. rewrite (afterDash_local _ _ Hb Hs).
  destruct (afterDash l) as [l2|] eqn:E; [|reflexivity]. simpl.
  pose proof (bare_in_box _ _ Hb E) as H2. unfold afterTickedBox.
  destruct l2 as [|x [|c2 l3]]; simpl.
  - now elim H2.
  - destruct Ht as [->|[t' ->]]; [reflexivity|].
    destruct (isX x); reflexivity.
  - destruct (isX x && N.eqb c2 93); reflexivity.
Qed.

(** ** One attempt of a counter pattern at the start of a line *)

Lemma countTail_line re l3 t :
  flag_m re = true -> allSpace l3 = false -> forallb notLT l3 = true ->
  lineEnd t -> countTail re (l3 ++ t) = Some (t, []).
Proof.
  intros Hm Hs Hn Ht. apply allSpace_false_drop in Hs.
  destruct (dropWhile isSpace l3) as [|c u] eqn:E; [contradiction|].
  apply (count_tail_complete re _ _ _ _ _ c u Hm E); [|assumption].
  apply (notLT_incl l3); [|assumption]. rewrite <- E. apply dropWhile_incl.
Qed.

Lemma test_uncheckedLine l :
  forallb notLT l = true -> bareBox l = false ->
  test reUncheckedLine l = isSome (afterUnchecked l).
Proof.
  intros Hn Hb. unfold test.
  rewrite (exec_anchored reUncheckedLine _ l eq_refl eq_refl), attempt_uncheckedLine.
  destruct (afterUnchecked l) as [l3|] eqn:E; [|reflexivity].
  pose proof (allSpace_false_drop _ (bare_after_unchecked _ _ Hb E)) as Hd.
  destruct (dropWhile isSpace l3) as [|c u] eqn:E3; [contradiction|].
  rewrite (line_tail_complete reUncheckedLine _ _ _ _ c u E3); [reflexivity|].
  apply (notLT_incl l); [|assumption].
  intros x Hx. apply (afterUnchecked_incl _ _ E).
  apply (dropWhile_incl isSpace l3). now rewrite E3.
Qed.

Lemma test_checkedLine l :
  forallb notLT l = true -> bareBox l = false ->
  test reCheckedLine l = isSome (afterChecked l).
Proof.
  intros Hn Hb. unfold test.
  rewrite (exec_anchored reCheckedLine _ l eq_refl eq_refl), attempt_checkedLine.
  destruct (afterChecked l) as [l3|] eqn:E; [|reflexivity].
  pose proof (allSpace_false_drop _ (bare_after_checked _ _ Hb E)) as Hd.
  destruct (dropWhile isSpace l3) as [|c u] eqn:E3; [contradiction|].
  rewrite (line_tail_complete reCheckedLine _ _ _ _ c u E3); [reflexivity|].
  apply (notLT_incl l); [|assumption].
  intros x Hx. apply (afterChecked_incl _ _ E).
  apply (dropWhile_incl isSpace l3). now rewrite E3.
Qed.

(** On a tidy line with something on it the counter's pattern matches the
    line to its end when the renderer's matches it, and not otherwise. *)
Lemma attempt_unchecked_line prev l t :
  atBol reCountUnchecked prev = true -> tidyLine l = true -> allSpace l = false ->
  lineEnd t ->
  attempt reCountUnchecked prev (l ++ t) =
  if test reUncheckedLine l then Some (t, []) else None.
Proof.
  intros Hp Ht Hs He. unfold tidyLine in Ht. apply andb_prop in Ht as [Hn Hb].
  apply negb_true_iff in Hb.
  rewrite attempt_countUnchecked, Hp, (afterUnchecked_local _ _ Hb Hs).
  rewrite (test_uncheckedLine _ Hn Hb).
  destruct (afterUnchecked l) as [l3|] eqn:E; [|reflexivity]. simpl.
  apply countTail_line; [reflexivity | now apply (bare_after_unchecked l) | | assumption].
  apply (notLT_incl l); [now apply afterUnchecked_incl | assumption].
Qed.

Lemma attempt_checked_line prev l t :
  atBol reCountChecked prev = true -> tidyLine l = true -> allSpace l = false ->
  lineEnd t ->
  attempt reCountChecked prev (l ++ t) =
  if test reCheckedLine l then Some (t, []) else None.
Proof.
  intros Hp Ht Hs He. unfold tidyLine in Ht. apply andb_prop in Ht as [Hn Hb].
  apply negb_true_iff in Hb.
  rewrite attempt_countChecked, Hp, (afterChecked_local _ _ He Hb Hs).
  rewrite (test_checkedLine _ Hn Hb).
  destruct (afterChecked l) as [l3|] eqn:E; [|reflexivity]. simpl.
  apply countTail_line; [reflexivity | now apply (bare_after_checked l) | | assumption].
  apply (notLT_incl l); [now apply afterChecked_incl | assumption].
Qed.

(** A line of whitespace is read through: the attempt at its start is the
    attempt at the start of the next line. *)
Lemma attempt_unchecked_blank prev l s :
  atBol reCountUnchecked prev = true -> allSpace l = true ->
  attempt reCountUnchecked prev (l ++ LF :: s) = attempt reCountUnchecked (Some LF) s.
Proof.
  intros Hp Hs. rewrite !attempt_countUnchecked, Hp.
  unfold afterUnchecked. now rewrite (afterDash_blank _ _ Hs).
Qed.

Lemma attempt_checked_blank prev l s :
  atBol reCountChecked prev = true -> allSpace l = true ->
  attempt reCountChecked prev (l ++ LF :: s) = attempt reCountChecked (Some LF) s.
Proof.
  intros Hp Hs. rewrite !attempt_countChecked, Hp.
  unfold afterChecked. now rewrite (afterDash_blank _ _ Hs).
Qed.

Lemma attempt_unchecked_blank_end prev l :
  allSpace l = true -> attempt reCountUnchecked prev l = None.
Proof.
  intros Hs. rewrite attempt_countUnchecked. unfold afterUnchecked.
  rewrite (afterDash_allSpace _ Hs). now destruct (atBol _ _).
Qed.

Lemma attempt_checked_blank_end prev l :
  allSpace l = true -> attempt reCountChecked prev l = None.
Proof.
  intros Hs. rewrite attempt_countChecked. unfold afterChecked.
  rewrite (afterDash_allSpace _ Hs). now destruct (atBol _ _).
Qed.

(** ** The scan of a whole text, line by line *)

Lemma join_tail l ls : join (l :: ls) = l ++ tailOf ls.
Proof. destruct ls; simpl; [now rewrite app_nil_r | reflexivity]. Qed.

Lemma tailOf_lineEnd ls : lineEnd (tailOf ls).
Proof. destruct ls; [now left | right; simpl; eauto]. Qed.

Lemma prevAfter_last prev l :
  l <> [] -> forallb notLT l = true ->
  exists c, prevAfter prev l = Some c /\ isLineTerminator c = false.
Proof.
  revert prev; induction l as [|d l IH]; intros prev Hne H; [contradiction|].
  simpl in H. apply andb_prop in H as [Hd Hl]. rewrite prevAfter_cons.
  destruct l as [|e l].
  - exists d; split; [reflexivity | now apply negb_true_iff].
  - apply IH; [discriminate | assumption].
Qed.

Lemma allSpace_nonempty l : allSpace l = false -> l <> [].
Proof. now destruct l. Qed.

Section Counting.
Variable re : regex.
Variable P : str -> bool.

Hypothesis Hpat : exists r, pattern re = Bol :: r.
Hypothesis Hm : flag_m re = true.
Hypothesis Hmin : 1 <= minlen (pattern re).
Hypothesis Hline : forall prev l t,
  atBol re prev = true -> tidyLine l = true -> allSpace l = false -> lineEnd t ->
  attempt re prev (l ++ t) = if P l then Some (t, []) else None.
Hypothesis Hblank : forall prev l s,
  atBol re prev = true -> allSpace l = true ->
  attempt re prev (l ++ LF :: s) = attempt re (Some LF) s.
Hypothesis Hend : forall prev l, allSpace l = true -> attempt re prev l = None.
Hypothesis HP : forall l, allSpace l = true -> P l = false.

Lemma attempt_inside c s :
  isLineTerminator c = false -> attempt re (Some c) s = None.
Proof.
  intros Hc. destruct Hpat as [r Hr]. unfold attempt.
  rewrite Hr, run_Bol. simpl. now rewrite Hc, andb_false_r.
Qed.

Lemma matchAll_0 prev s :
  matchAll re prev s 0 =
  match attempt re prev s with
  | Some (rest, _) =>
      let m := firstn (length s - length rest) s in
      m :: match s with
           | [] => []
           | c :: s' => matchAll re (Some c) s' (length m - 1)
           end
  | None =>
      match s with
      | [] => []
      | c :: s' => matchAll re (Some c) s' 0
      end
  end.
Proof. destruct s; reflexivity. Qed.

Lemma matchAll_skip x : forall prev y k,
  matchAll re prev (x ++ y) (length x + k) = matchAll re (prevAfter prev x) y k.
Proof.
  induction x as [|c x IH]; intros prev y k; [reflexivity|].
  simpl. apply IH.
Qed.

(** After a match the scan goes on where the match ended. *)
Lemma matchAll_hit prev m rest caps :
  attempt re prev (m ++ rest) = Some (rest, caps) -> m <> [] ->
  matchAll re prev (m ++ rest) 0 = m :: matchAll re (prevAfter prev m) rest 0.
Proof.
  intros H Hne. rewrite matchAll_0, H. cbv zeta.
  assert (E : firstn (length (m ++ rest) - length rest) (m ++ rest) = m).
  { rewrite length_app.
    replace (_ + _ - _) with (length m + 0) by lia.
    rewrite firstn_app_2. simpl. apply app_nil_r. }
  rewrite E. f_equal.
  destruct m as [|c m]; [contradiction|]. simpl.
  rewrite Nat.sub_0_r, <- (Nat.add_0_r (length m)). apply matchAll_skip.
Qed.

(** No match starts inside a line. *)
Lemma matchAll_inside x : forall c y,
  isLineTerminator c = false -> forallb notLT x = true ->
  matchAll re (Some c) (x ++ y) 0 = matchAll re (prevAfter (Some c) x) y 0.
Proof.
  induction x as [|d x IH]; intros c y Hc Hx; [reflexivity|].
  simpl in Hx. apply andb_prop in Hx as [Hd Hx].
  change ((d :: x) ++ y) with (d :: x ++ y).
  rewrite matchAll_0, (attempt_inside _ _ Hc), prevAfter_cons.
  apply IH; [now apply negb_true_iff | assumption].
Qed.

(** From the end of a line the scan goes on at the start of the next. *)
Lemma matchAll_line_end c ls :
  isLineTerminator c = false ->
  matchAll re (Some c) (tailOf ls) 0 = matchAll re (Some LF) (join ls) 0.
Proof.
  intros Hc. destruct ls as [|l ls].
  - simpl tailOf. simpl join. rewrite !matchAll_0.
    rewrite (attempt_inside _ _ Hc), (Hend (Some LF) [] eq_refl). reflexivity.
  - unfold tailOf. rewrite matchAll_0, (attempt_inside _ _ Hc). reflexivity.
Qed.

(** A line without a match: the scan passes it. *)
Lemma matchAll_miss prev l ls :
  forallb notLT l = true -> attempt re prev (l ++ tailOf ls) = None ->
  matchAll re prev (l ++ tailOf ls) 0 = matchAll re (Some LF) (join ls) 0.
Proof.
  intros Hn Ha. destruct l as [|c x].
  - simpl app in *. destruct ls as [|l' ls'].
    + simpl tailOf in *. simpl join.
      now rewrite !matchAll_0, Ha, (Hend (Some LF) [] eq_refl).
    + unfold tailOf in *. rewrite matchAll_0, Ha. reflexivity.
  - change ((c :: x) ++ tailOf ls) with (c :: x ++ tailOf ls) in *.
    rewrite matchAll_0, Ha.
    simpl in Hn. apply andb_prop in Hn as [Hc Hx].
    rewrite matchAll_inside by (try assumption; now apply negb_true_iff).
    destruct (prevAfter_last (Some c) (c :: x)) as (e & He & HeLT);
      [discriminate | simpl; now rewrite Hc |].
    rewrite prevAfter_cons in He.
    assert (E : prevAfter (Some c) x = Some e).
    { destruct x; [exact He | exact He]. }
    rewrite E. now apply matchAll_line_end.
Qed.

Lemma atBol_LF : atBol re (Some LF) = true.
Proof. simpl. now rewrite Hm. Qed.

Theorem scan_counts_lines : forall ls,
  Forall (fun l => tidyLine l = true) ls ->
  forall prev, atBol re prev = true ->
    length (matchAll re prev (join ls) 0) = length (filter P ls).
Proof.
  induction ls as [|l ls IH]; intros Hall prev Hp.
  - cbn [join filter]. rewrite matchAll_0, (Hend prev [] eq_refl). reflexivity.
  - inversion Hall as [|? ? Hl Hls]; subst.
    specialize (IH Hls).
    assert (Hn : forallb notLT l = true).
    { unfold tidyLine in Hl. now apply andb_prop in Hl as [Hn _]. }
    rewrite join_tail. cbn [filter].
    destruct (allSpace l) eqn:Hs.
    + rewrite (HP _ Hs).
      destruct ls as [|l' ls'].
      * rewrite matchAll_miss; [now apply IH, atBol_LF | assumption |].
        simpl tailOf. rewrite app_nil_r. now apply Hend.
      * assert (Ha : attempt re prev (l ++ tailOf (l' :: ls')) =
                     attempt re (Some LF) (join (l' :: ls')))
          by now apply Hblank.
        destruct (attempt re (Some LF) (join (l' :: ls'))) as [[rest caps]|] eqn:E.
        -- rewrite <- (IH (Some LF) atBol_LF).
           change (tailOf (l' :: ls')) with (LF :: join (l' :: ls')) in *.
           remember (join (l' :: ls')) as T' eqn:ET. clear ET.
           pose proof E as E'. unfold attempt in E'.
           apply run_suffix in E' as (m & -> & Hlen).
           assert (Hne : m <> []) by (destruct m; [simpl in Hlen; lia | discriminate]).
           rewrite (matchAll_hit _ _ _ _ E Hne).
           replace (l ++ LF :: m ++ rest) with ((l ++ LF :: m) ++ rest) in *
             by now rewrite <- app_assoc.
           rewrite (matchAll_hit _ _ _ _ Ha); [|now destruct l].
           rewrite prevAfter_app, prevAfter_cons. reflexivity.
        -- rewrite matchAll_miss by assumption. now apply IH, atBol_LF.
    + pose proof (Hline prev l (tailOf ls) Hp Hl Hs (tailOf_lineEnd ls)) as Ha.
      destruct (P l).
      * rewrite (matchAll_hit _ _ _ _ Ha (allSpace_nonempty _ Hs)).
        destruct (prevAfter_last prev l (allSpace_nonempty _ Hs) Hn)
          as (e & -> & He).
        rewrite (matchAll_line_end _ _ He). simpl. f_equal.
        now apply IH, atBol_LF.
      * rewrite matchAll_miss by assumption. now apply IH, atBol_LF.
Qed.

(** The counter on a text that is not empty. *)
Lemma count_with_length T :
  T <> [] -> count_with re (Some T) = length (matchAll re None T 0).
Proof.
  intros H. unfold count_with, match_g. destruct T as [|c T]; [contradiction|].
  cbn [falsy toString]. now destruct (matchAll re None (c :: T) 0).
Qed.

Theorem count_with_lines T :
  tidy T = true -> count_with re (Some T) = length (filter P (split T)).
Proof.
  intros HT. destruct T as [|c T].
  - simpl. now rewrite (HP [] eq_refl).
  - rewrite count_with_length by discriminate.
    rewrite <- (join_split (c :: T)) at 1.
    apply scan_counts_lines; [|reflexivity].
    unfold tidy in HT. rewrite forallb_forall in HT.
    apply Forall_forall. exact HT.
Qed.
End Counting.

Lemma test_uncheckedLine_blank l : allSpace l = true -> test reUncheckedLine l = false.
Proof.
  intros H. unfold test.
  rewrite (exec_anchored reUncheckedLine _ l eq_refl eq_refl), attempt_uncheckedLine.
  unfold afterUnchecked. now rewrite (afterDash_allSpace _ H).
Qed.

Lemma test_checkedLine_blank l : allSpace l = true -> test reCheckedLine l = false.
Proof.
  intros H. unfold test.
  rewrite (exec_anchored reCheckedLine _ l eq_refl eq_refl), attempt_checkedLine.
  unfold afterChecked. now rewrite (afterDash_allSpace _ H).
Qed.

(** * The claims about the counters *)

(** C4: the code at the input where it leaves the claim.  The first line is
    a box without text and no task line; the scan of the unchecked counter
    reads on over the line feed and takes the second line as its text, and
    the checked counter counts the second line again.  One line matches a
    checkbox pattern, the renderer's or the spec's, and the total is 2. *)
Theorem counters_count_line_twice :
  let T := js "- [ ]" ++ LF :: js "- [x] B" in
  let st := {| mode := view; localContent := T; showStats := true |} in
  countUncheckedTasks (Some T) = 1 /\
  countCheckedTasks (Some T) = 1 /\
  totalTasks st = 2 /\
  map renderLine (split T) = [NoBox; CheckedBox [] (js "B")] /\
  length (filter isTaskLine (split T)) = 1 /\
  countLines spec_reUnchecked T + countLines spec_reChecked T = 1.
Proof. repeat split. Qed.




(** C6.  Both counters return 0 for the empty string and for [undefined]. *)
Theorem counters_of_nothing :
  countUncheckedTasks (Some []) = 0 /\ countUncheckedTasks None = 0 /\
  countCheckedTasks (Some []) = 0 /\ countCheckedTasks None = 0.
Proof. repeat split. Qed.

(** * The claims about the controls and the modes *)



(** C8.  In edit mode with any draft typed in, Cancel puts the committed
    content back as local content, returns to view and fires no callback;
    Save fires the content-changed callback with the draft and returns to
    view. *)
Theorem cancel_discards_save_commits p st draft :
  isOpen p = true -> mode st = edit ->
  exists typed cancelled saved,
    step p st (TypeText draft) = Some (typed, []) /\
    localContent typed = draft /\ mode typed = edit /\
    step p typed ClickCancel = Some (cancelled, []) /\
    localContent cancelled = content p /\ mode cancelled = view /\
    step p typed ClickSave = Some (saved, [onContentChange draft]) /\
    mode saved = view.
Proof.
  intros Ho Hm.
  exists (setLocalContent draft st),
         (setMode view (setLocalContent (content p) (setLocalContent draft st))),
         (setMode view (setLocalContent draft st)).
  unfold step. rewrite Ho. simpl. rewrite Hm. repeat split.
Qed.

(** The same from the first render: Edit, type, then Cancel or Save. *)
Lemma cancel_discards_save_commits_witness :
  steps sampleProps (initial sampleProps)
        [ClickEdit; TypeText (js "- [ ] A, changed"); ClickCancel]
  = Some (initial sampleProps, []) /\
  exists typed cancelled saved,
    step sampleProps (setMode edit (initial sampleProps))
         (TypeText (js "draft")) = Some (typed, []) /\
    localContent typed = js "draft" /\ mode typed = edit /\
    step sampleProps typed ClickCancel = Some (cancelled, []) /\
    localContent cancelled = content sampleProps /\ mode cancelled = view /\
    step sampleProps typed ClickSave = Some (saved, [onContentChange (js "draft")]) /\
    mode saved = view.
Proof.
  split; [reflexivity|].
  exact (cancel_discards_save_commits sampleProps
           (setMode edit (initial sampleProps)) (js "draft") eq_refl eq_refl).
Defined.

(** * More about the counters *)

(** The counters on a tidy text, each on its own. *)
Lemma count_unchecked_tidy T :
  tidy T = true -> countUncheckedTasks (Some T) = countLines reUncheckedLine T.
Proof.
  intros HT.
  apply (count_with_lines reCountUnchecked (test reUncheckedLine));
    [now eexists | reflexivity | simpl; lia | | | | | assumption].
  - intros; now apply attempt_unchecked_line.
  - intros; now apply attempt_unchecked_blank.
  - intros; now apply attempt_unchecked_blank_end.
  - apply test_uncheckedLine_blank.
Qed.

Lemma count_checked_tidy T :
  tidy T = true -> countCheckedTasks (Some T) = countLines reCheckedLine T.
Proof.
  intros HT.
  apply (count_with_lines reCountChecked (test reCheckedLine));
    [now eexists | reflexivity | simpl; lia | | | | | assumption].
  - intros; now apply attempt_checked_line.
  - intros; now apply attempt_checked_blank.
  - intros; now apply attempt_checked_blank_end.
  - apply test_checkedLine_blank.
Qed.

(** Every match starts at a position where the pattern matches. *)
Lemma matchAll_le_hits re : forall s prev k,
  length (matchAll re prev s k) <= hitsFrom re prev s.
Proof.
  induction s as [|c s IH]; intros prev k.
  - destruct k as [|k]; [|simpl; lia].
    rewrite matchAll_0. cbn [hitsFrom].
    destruct (attempt re prev []) as [[rest caps]|]; simpl; lia.
  - destruct k as [|k].
    + rewrite matchAll_0. cbn [hitsFrom].
      destruct (attempt re prev (c :: s)) as [[rest caps]|]; cbn [isSome Nat.b2n].
      * cbv zeta. cbn [length]. specialize (IH (Some c)). 
        match goal with |- S (length (matchAll _ _ _ ?k)) <= _ =>
          specialize (IH k) end. lia.
      * specialize (IH (Some c) 0). lia.
    + cbn [matchAll hitsFrom]. specialize (IH (Some c) k). lia.
Qed.

Lemma hit_unchecked prev s :
  isSome (attempt reCountUnchecked prev s) = true ->
  atBol reCountUnchecked prev = true /\ isSome (afterUnchecked s) = true.
Proof.
  rewrite attempt_countUnchecked.
  destruct (atBol reCountUnchecked prev); [|discriminate].
  destruct (afterUnchecked s); [auto | discriminate].
Qed.

Lemma hit_checked prev s :
  isSome (attempt reCountChecked prev s) = true ->
  atBol reCountUnchecked prev = true /\ isSome (afterChecked s) = true.
Proof.
  rewrite attempt_countChecked.
  change (atBol reCountChecked prev) with (atBol reCountUnchecked prev).
  destruct (atBol reCountUnchecked prev); [|discriminate].
  destruct (afterChecked s); [auto | discriminate].
Qed.

(** No position starts a match of both patterns, and a match starts at the
    start of a line. *)
Lemma hits_at_line_start prev s :
  Nat.b2n (isSome (attempt reCountUnchecked prev s)) +
  Nat.b2n (isSome (attempt reCountChecked prev s))
  <= Nat.b2n (atBol reCountUnchecked prev).
Proof.
  destruct (isSome (attempt reCountUnchecked prev s)) eqn:EU;
    destruct (isSome (attempt reCountChecked prev s)) eqn:EC; simpl; try lia.
  - apply hit_unchecked in EU as [_ EU]. apply hit_checked in EC as [_ EC].
    destruct (afterChecked s) as [s3|] eqn:E; [|discriminate].
    rewrite (afterChecked_not_unchecked _ _ E) in EU. discriminate.
  - apply hit_unchecked in EU as [-> _]. simpl. lia.
  - apply hit_checked in EC as [-> _]. simpl. lia.
Qed.

Lemma hits_pair_bound : forall s prev,
  hitsFrom reCountUnchecked prev s + hitsFrom reCountChecked prev s
  <= Nat.b2n (atBol reCountUnchecked prev) + length (filter isLineTerminator s).
Proof.
  induction s as [|c s IH]; intros prev; cbn [hitsFrom filter length].
  - pose proof (hits_at_line_start prev []). lia.
  - pose proof (hits_at_line_start prev (c :: s)) as H.
    specialize (IH (Some c)).
    change (atBol reCountUnchecked (Some c)) with (isLineTerminator c) in IH.
    destruct (isLineTerminator c); cbn [length Nat.b2n] in *; lia.
Qed.

Lemma count_with_hits re T : count_with re (Some T) <= hitsFrom re None T.
Proof.
  destruct T as [|c T]; [unfold count_with; simpl; lia|].
  rewrite count_with_length by discriminate. apply matchAll_le_hits.
Qed.

Lemma split_length T : onlyLF T = true -> length (split T) = lineCount T.
Proof.
  unfold lineCount. induction T as [|c T IH]; [reflexivity|].
  cbn [onlyLF forallb]. intros H. apply andb_prop in H as [Hc HT].
  specialize (IH HT). cbn [split filter].
  destruct (N.eqb_spec c LF) as [->|Hn].
  - cbn [isLineTerminator]. simpl. now rewrite IH.
  - rewrite orb_false_r in Hc. apply negb_true_iff in Hc. rewrite Hc.
    destruct (split T) as [|l ls]; simpl in *; lia.
Qed.

(** X1.  The two counters together never exceed the number of lines of the
    text, however the scan crosses line breaks: one more than its line
    terminators, which is the length of [split] when they are all line
    feeds. *)
Theorem total_at_most_lines st :
  totalTasks st <= lineCount (localContent st) /\
  (onlyLF (localContent st) = true ->
   totalTasks st <= length (split (localContent st))).
Proof.
  assert (H : totalTasks st <= lineCount (localContent st)).
  { unfold totalTasks, uncheckedCount, checkedCount, countUncheckedTasks,
      countCheckedTasks, lineCount.
    pose proof (count_with_hits reCountUnchecked (localContent st)).
    pose proof (count_with_hits reCountChecked (localContent st)).
    pose proof (hits_pair_bound (localContent st) None).
    simpl Nat.b2n in *. lia. }
  split; [assumption|]. intros HLF. now rewrite split_length.
Qed.

Lemma total_at_most_lines_witness :
  totalTasks {| mode := view; localContent := sampleText; showStats := true |}
  <= length (split sampleText).
Proof.
  exact (proj2 (total_at_most_lines
                  {| mode := view; localContent := sampleText;
                     showStats := true |}) eq_refl).
Defined.

(** ** Texts put together *)

Lemma split_app_lines a b : split (a ++ LF :: b) = split a ++ split b.
Proof.
  induction a as [|c a IH]; [reflexivity|].
  cbn [app split]. rewrite IH.
  destruct (N.eqb c LF); [reflexivity|].
  destruct (split_cons a) as (l & ls & ->). reflexivity.
Qed.

Lemma tidy_app a b : tidy (a ++ LF :: b) = tidy a && tidy b.
Proof. unfold tidy. now rewrite split_app_lines, forallb_app. Qed.

Lemma countLines_app re a b :
  countLines re (a ++ LF :: b) = countLines re a + countLines re b.
Proof.
  unfold countLines. now rewrite split_app_lines, filter_app, length_app.
Qed.

(** X2.  On tidy texts the counters add up: the tasks of two texts joined
    by a line feed are the tasks of the one and the tasks of the other. *)
Theorem counters_additive a b :
  tidy a = true -> tidy b = true ->
  countUncheckedTasks (Some (a ++ LF :: b))
  = countUncheckedTasks (Some a) + countUncheckedTasks (Some b) /\
  countCheckedTasks (Some (a ++ LF :: b))
  = countCheckedTasks (Some a) + countCheckedTasks (Some b).
Proof.
  intros Ha Hb.
  assert (Hab : tidy (a ++ LF :: b) = true) by now rewrite tidy_app, Ha, Hb.
  rewrite !count_unchecked_tidy, !count_checked_tidy by assumption.
  now rewrite !countLines_app.
Qed.

Lemma counters_additive_witness :
  countUncheckedTasks (Some (sampleText ++ LF :: js "- [ ] D"))
  = countUncheckedTasks (Some sampleText) + countUncheckedTasks (Some (js "- [ ] D")) /\
  countCheckedTasks (Some (sampleText ++ LF :: js "- [ ] D"))
  = countCheckedTasks (Some sampleText) + countCheckedTasks (Some (js "- [ ] D")).
Proof. exact (counters_additive sampleText (js "- [ ] D") eq_refl eq_refl). Defined.

(** ** The counters and the boxes on the screen *)

Lemma uncheckedMatch_test l :
  test reUncheckedLine l = isSome (uncheckedMatch l).
Proof.
  unfold test, uncheckedMatch, line_match.
  now destruct (exec reUncheckedLine l).
Qed.

Lemma checkedMatch_test l : test reCheckedLine l = isSome (checkedMatch l).
Proof.
  unfold test, checkedMatch, line_match. now destruct (exec reCheckedLine l).
Qed.

Lemma mapFrom_In e : forall lines k,
  In e (mapFrom k lines) <->
  exists i line, nth_error lines i = Some line /\ e = renderElement (k + i) line.
Proof.
  induction lines as [|l ls IH]; intros k; cbn [mapFrom In].
  - split; [intros [] | intros (i & line & H & _); now destruct i].
  - rewrite IH. split.
    + intros [<-|(i & line & H & ->)].
      * exists 0, l. now rewrite Nat.add_0_r.
      * exists (S i), line. split; [assumption | f_equal; lia].
    + intros ([|i] & line & H & ->).
      * left. injection H as ->. now rewrite Nat.add_0_r.
      * right. exists i, line. split; [assumption | f_equal; lia].
Qed.

(** Where the renderer draws an empty box. *)
Lemma emptyBox_shown T :
  (exists padding index text, In (TaskRow false padding index text) (TaskListRenderer T))
  <-> exists line, In line (split T) /\ test reUncheckedLine line = true.
Proof.
  unfold TaskListRenderer. split.
  - intros (pad & idx & text & H). apply mapFrom_In in H as (i & line & Hn & He).
    exists line. split; [eapply nth_error_In; eassumption|].
    rewrite uncheckedMatch_test. unfold renderElement in He.
    destruct (uncheckedMatch line) as [[ind t]|]; [reflexivity|].
    destruct (checkedMatch line) as [[ind t]|]; [discriminate|].
    destruct (headerMatch line) as [[h t]|]; [discriminate|].
    destruct (trim line); discriminate.
  - intros (line & Hin & Ht). apply In_nth_error in Hin as [i Hn].
    rewrite uncheckedMatch_test in Ht.
    destruct (uncheckedMatch line) as [[ind t]|] eqn:E; [|discriminate].
    exists (paddingLeft ind), i, t. apply mapFrom_In.
    exists i, line. split; [assumption|]. unfold renderElement. now rewrite E.
Qed.

Lemma filter_nonempty (P : str -> bool) ls :
  0 < length (filter P ls) <-> exists l, In l ls /\ P l = true.
Proof.
  split.
  - destruct (filter P ls) as [|l f] eqn:E; [simpl; lia|]. intros _.
    exists l. apply filter_In. rewrite E. now left.
  - intros (l & Hin & Hp).
    assert (H : In l (filter P ls)) by now apply filter_In.
    destruct (filter P ls); [contradiction | simpl; lia].
Qed.

(** X3.  On a tidy draft the Run button is enabled exactly when no auto-run
    is running, the session is not busy and the task list on the screen has
    an empty checkbox. *)
Theorem run_enabled_iff_box_shown p st :
  tidy (localContent st) = true ->
  (canStartAutoRun p st = true <->
   isAutoRunning p = false /\ busy p = false /\
   exists padding index text,
     In (TaskRow false padding index text) (TaskListRenderer (localContent st))).
Proof.
  intros HT. unfold canStartAutoRun, uncheckedCount.
  rewrite (count_unchecked_tidy _ HT). unfold countLines.
  rewrite !andb_true_iff, !negb_true_iff, Nat.ltb_lt.
  rewrite filter_nonempty, emptyBox_shown. tauto.
Qed.

Lemma run_enabled_iff_box_shown_witness :
  canStartAutoRun sampleProps
    {| mode := view; localContent := sampleText; showStats := true |} = true <->
  isAutoRunning sampleProps = false /\ busy sampleProps = false /\
  exists padding index text,
    In (TaskRow false padding index text) (TaskListRenderer sampleText).
Proof.
  exact (run_enabled_iff_box_shown sampleProps
           {| mode := view; localContent := sampleText; showStats := true |}
           eq_refl).
Defined.

(** ** The counters after a toggle *)

Lemma filter_set_nth (P : str -> bool) v : forall ls n old,
  nth_error ls n = Some old ->
  length (filter P (set_nth ls n v)) + Nat.b2n (P old)
  = length (filter P ls) + Nat.b2n (P v).
Proof.
  induction ls as [|l ls IH]; intros n old H; [now destruct n|].
  destruct n as [|n].
  - injection H as ->. cbn [set_nth filter].
    destruct (P old), (P v); simpl; lia.
  - cbn [set_nth filter]. specialize (IH n old H).
    destruct (P l); simpl; lia.
Qed.

Lemma forallb_set_nth (P : str -> bool) v : forall ls n,
  n < length ls -> forallb P ls = true -> P v = true ->
  forallb P (set_nth ls n v) = true.
Proof.
  induction ls as [|l ls IH]; intros n Hn Hall Hv; [simpl in Hn; lia|].
  cbn [forallb] in Hall. apply andb_prop in Hall as [Hl Hls].
  destruct n as [|n]; cbn [set_nth forallb].
  - now rewrite Hv.
  - rewrite Hl. apply IH; [simpl in Hn; lia | assumption..].
Qed.

Lemma tidyLine_parts l : tidyLine l = true -> forallb notLT l = true /\ bareBox l = false.
Proof.
  unfold tidyLine. intros H. apply andb_prop in H as [Hn Hb].
  now apply negb_true_iff in Hb.
Qed.

Lemma rewritten_notLT l marker s3 :
  forallb notLT l = true -> forallb notLT marker = true -> incl s3 l ->
  forallb notLT (takeWhile isSpace l ++ marker ++ dropWhile isSpace s3) = true.
Proof.
  intros Hl Hm Hi. rewrite !forallb_app, Hm.
  rewrite (notLT_incl l (takeWhile isSpace l)) by (apply takeWhile_incl || assumption).
  rewrite (notLT_incl l (dropWhile isSpace s3)); [reflexivity | | assumption].
  intros x Hx. apply Hi. now apply dropWhile_incl in Hx.
Qed.

(** The line the handler writes for a tidy unchecked line: tidy, and read
    as checked. *)
Lemma toggled_unchecked_tidy l s3 :
  tidyLine l = true -> afterUnchecked l = Some s3 ->
  tidyLine (toggledLine l) = true /\
  afterUnchecked (toggledLine l) = None /\
  isSome (afterChecked (toggledLine l)) = true.
Proof.
  intros Ht E. apply tidyLine_parts in Ht as [Hn Hb].
  pose proof (allSpace_false_drop _ (bare_after_unchecked _ _ Hb E)) as Hd.
  assert (Hnew : forallb notLT (toggledLine l) = true).
  { unfold toggledLine. rewrite E.
    apply rewritten_notLT; [assumption | reflexivity | now apply afterUnchecked_incl]. }
  unfold tidyLine. rewrite Hnew. clear Hnew.
  unfold toggledLine. rewrite E.
  destruct (dropWhile isSpace s3) as [|c u] eqn:E3; [contradiction|].
  apply dropWhile_head in E3.
  pose proof (takeWhile_all isSpace l) as Hi.
  change (js "- [x] " ++ c :: u)
    with (45%N :: 32%N :: 91%N :: [120%N; 93%N; 32%N] ++ c :: u).
  unfold afterUnchecked, afterChecked, bareBox.
  rewrite (afterDash_canonical _ _ _ Hi).
  rewrite dropWhile_app_all by assumption.
  cbn. rewrite E3. auto.
Qed.

Lemma toggled_checked_tidy l s3 :
  tidyLine l = true -> afterChecked l = Some s3 ->
  tidyLine (toggledLine l) = true /\
  isSome (afterUnchecked (toggledLine l)) = true /\
  afterChecked (toggledLine l) = None.
Proof.
  intros Ht E. apply tidyLine_parts in Ht as [Hn Hb].
  pose proof (allSpace_false_drop _ (bare_after_checked _ _ Hb E)) as Hd.
  assert (Hnew : forallb notLT (toggledLine l) = true).
  { unfold toggledLine. rewrite (afterChecked_not_unchecked _ _ E), E.
    apply rewritten_notLT; [assumption | reflexivity | now apply afterChecked_incl]. }
  unfold tidyLine. rewrite Hnew. clear Hnew.
  unfold toggledLine. rewrite (afterChecked_not_unchecked _ _ E), E.
  destruct (dropWhile isSpace s3) as [|c u] eqn:E3; [contradiction|].
  apply dropWhile_head in E3.
  pose proof (takeWhile_all isSpace l) as Hi.
  change (js "- [ ] " ++ c :: u)
    with (45%N :: 32%N :: 91%N :: [32%N; 93%N; 32%N] ++ c :: u).
  unfold afterUnchecked, afterChecked, bareBox.
  rewrite (afterDash_canonical _ _ _ Hi).
  rewrite dropWhile_app_all by assumption.
  cbn. rewrite E3. auto.
Qed.

Lemma toggleContent_line T i line :
  nth_error (split T) i = Some line -> hasCheckboxPrefix line = true ->
  toggleContent T (Z.of_nat i) = Some (join (set_nth (split T) i (toggledLine line))) /\
  split (join (set_nth (split T) i (toggledLine line)))
  = set_nth (split T) i (toggledLine line).
Proof.
  intros Hl Hp. pose proof (split_toggled _ _ _ Hl) as Hs.
  rewrite toggleContent_spec, array_get_nth, Hl, Hp.
  unfold array_set in *. destruct (Z.ltb_spec (Z.of_nat i) 0); [lia|].
  rewrite Nat2Z.id in *. auto.
Qed.

Lemma tidy_line T i line :
  tidy T = true -> nth_error (split T) i = Some line -> tidyLine line = true.
Proof.
  unfold tidy. rewrite forallb_forall. intros H Hl. apply H.
  eapply nth_error_In; eassumption.
Qed.

Lemma renderLine_cases l indent text :
  (renderLine l = UncheckedBox indent text -> uncheckedMatch l = Some (indent, text)) /\
  (renderLine l = CheckedBox indent text -> checkedMatch l = Some (indent, text)).
Proof.
  unfold renderLine. split.
  - destruct (uncheckedMatch l) as [[i t]|]; [congruence|].
    destruct (checkedMatch l) as [[i t]|]; discriminate.
  - destruct (uncheckedMatch l) as [[i t]|]; [discriminate|].
    destruct (checkedMatch l) as [[i t]|]; [congruence | discriminate].
Qed.

Lemma toggled_text_tidy T i line :
  tidy T = true -> nth_error (split T) i = Some line ->
  split (join (set_nth (split T) i (toggledLine line)))
  = set_nth (split T) i (toggledLine line) ->
  tidyLine (toggledLine line) = true ->
  tidy (join (set_nth (split T) i (toggledLine line))) = true.
Proof.
  intros HT Hl Hs Hn. unfold tidy. rewrite Hs.
  apply forallb_set_nth; [apply nth_error_Some; congruence | exact HT | exact Hn].
Qed.

Lemma toggled_counts T i line (re : regex) :
  nth_error (split T) i = Some line ->
  split (join (set_nth (split T) i (toggledLine line)))
  = set_nth (split T) i (toggledLine line) ->
  countLines re (join (set_nth (split T) i (toggledLine line)))
  + Nat.b2n (test re line)
  = countLines re T + Nat.b2n (test re (toggledLine line)).
Proof.
  intros Hl Hs. unfold countLines. rewrite Hs. now apply filter_set_nth.
Qed.

(** X4.  On a tidy text, ticking an unchecked task takes one from the
    unchecked count and adds one to the checked count, and unticking a
    checked task does the reverse; the text stays tidy. *)
Theorem toggle_moves_one_count T i line indent text :
  tidy T = true -> nth_error (split T) i = Some line ->
  (renderLine line = UncheckedBox indent text ->
   exists T', toggleContent T (Z.of_nat i) = Some T' /\ tidy T' = true /\
     countUncheckedTasks (Some T) = S (countUncheckedTasks (Some T')) /\
     countCheckedTasks (Some T') = S (countCheckedTasks (Some T)))
  /\
  (renderLine line = CheckedBox indent text ->
   exists T', toggleContent T (Z.of_nat i) = Some T' /\ tidy T' = true /\
     countCheckedTasks (Some T) = S (countCheckedTasks (Some T')) /\
     countUncheckedTasks (Some T') = S (countUncheckedTasks (Some T))).
Proof.
  intros HT Hl. pose proof (tidy_line _ _ _ HT Hl) as Hline.
  destruct (tidyLine_parts _ Hline) as [Hn Hb].
  split; intros Hr.
  - apply (proj1 (renderLine_cases line indent text)) in Hr.
    apply uncheckedMatch_sound in Hr as (_ & _ & s3 & E & _).
    destruct (toggled_unchecked_tidy _ _ Hline E) as (Hnew & EU & EC).
    destruct (tidyLine_parts _ Hnew) as [Hn' Hb'].
    assert (Hp : hasCheckboxPrefix line = true)
      by (unfold hasCheckboxPrefix; now rewrite E).
    destruct (toggleContent_line _ _ _ Hl Hp) as [Htc Hs].
    eexists; split; [exact Htc|].
    pose proof (toggled_text_tidy _ _ _ HT Hl Hs Hnew) as HT'.
    split; [assumption|].
    rewrite !count_unchecked_tidy, !count_checked_tidy by assumption.
    pose proof (toggled_counts T i line reUncheckedLine Hl Hs) as HU.
    pose proof (toggled_counts T i line reCheckedLine Hl Hs) as HC.
    rewrite !test_uncheckedLine in HU by assumption.
    rewrite !test_checkedLine in HC by assumption.
    rewrite E, EU in HU.
    destruct (afterChecked line) as [s|] eqn:EL;
      [rewrite (afterChecked_not_unchecked _ _ EL) in E; discriminate|].
    rewrite EC in HC. simpl in HU, HC. lia.
  - apply (proj2 (renderLine_cases line indent text)) in Hr.
    apply checkedMatch_sound in Hr as (_ & _ & s3 & E & _).
    destruct (toggled_checked_tidy _ _ Hline E) as (Hnew & EU & EC).
    destruct (tidyLine_parts _ Hnew) as [Hn' Hb'].
    assert (Hp : hasCheckboxPrefix line = true)
      by (unfold hasCheckboxPrefix; rewrite E; apply orb_true_r).
    destruct (toggleContent_line _ _ _ Hl Hp) as [Htc Hs].
    eexists; split; [exact Htc|].
    pose proof (toggled_text_tidy _ _ _ HT Hl Hs Hnew) as HT'.
    split; [assumption|].
    rewrite !count_unchecked_tidy, !count_checked_tidy by assumption.
    pose proof (toggled_counts T i line reUncheckedLine Hl Hs) as HU.
    pose proof (toggled_counts T i line reCheckedLine Hl Hs) as HC.
    rewrite !test_uncheckedLine in HU by assumption.
    rewrite !test_checkedLine in HC by assumption.
    rewrite (afterChecked_not_unchecked _ _ E) in HU.
    rewrite E, EC in HC.
    destruct (afterUnchecked (toggledLine line)); [|discriminate].
    simpl in HU, HC. lia.
Qed.

Lemma toggle_moves_one_count_witness :
  exists T', toggleContent sampleText 2 = Some T' /\ tidy T' = true /\
    countUncheckedTasks (Some sampleText) = S (countUncheckedTasks (Some T')) /\
    countCheckedTasks (Some T') = S (countCheckedTasks (Some sampleText)).
Proof.
  exact (proj1 (toggle_moves_one_count sampleText 2 (js "  - [ ] A")
                  (js "  ") (js "A") eq_refl eq_refl) eq_refl).
Defined.

(** * More about the toggle handler *)

Lemma toggledLine_unticked indent rest :
  forallb isSpace indent = true ->
  dropWhile isSpace rest = rest ->
  toggledLine (indent ++ js "- [ ] " ++ rest) = indent ++ js "- [x] " ++ rest.
Proof.
  intros Hi Hr. unfold toggledLine, afterUnchecked, afterChecked, afterDash.
  rewrite dropWhile_app_all by assumption.
  rewrite takeWhile_app_all by assumption.
  cbn. rewrite Hr. now rewrite app_nil_r.
Qed.

(** After the first toggle the line alternates between two forms. *)
Lemma toggledLine_thrice l :
  toggledLine (toggledLine (toggledLine l)) = toggledLine l.
Proof.
  pose proof (takeWhile_all isSpace l) as Hi.
  destruct (afterUnchecked l) as [s3|] eqn:EU.
  - assert (H : toggledLine l
                = takeWhile isSpace l ++ js "- [x] " ++ dropWhile isSpace s3)
      by (unfold toggledLine; now rewrite EU).
    rewrite H, toggledLine_ticked, toggledLine_unticked;
      auto using dropWhile_idem.
  - destruct (afterChecked l) as [s3|] eqn:EC.
    + assert (H : toggledLine l
                  = takeWhile isSpace l ++ js "- [ ] " ++ dropWhile isSpace s3)
        by (unfold toggledLine; now rewrite EU, EC).
      rewrite H, toggledLine_unticked, toggledLine_ticked;
        auto using dropWhile_idem.
    + assert (H : toggledLine l = l) by (unfold toggledLine; now rewrite EU, EC).
      now rewrite !H.
Qed.

Lemma set_nth_id : forall ls n l, nth_error ls n = Some l -> set_nth ls n l = ls.
Proof.
  induction ls as [|a ls IH]; intros n l H; [now destruct n|].
  destruct n as [|n]; simpl in *; [congruence | now rewrite IH].
Qed.

Lemma set_nth_twice : forall ls n v w,
  n < length ls -> set_nth (set_nth ls n v) n w = set_nth ls n w.
Proof.
  induction ls as [|a ls IH]; intros n v w H; [simpl in H; lia|].
  destruct n as [|n]; simpl in *; [reflexivity | rewrite IH; [reflexivity | lia]].
Qed.

(** One toggle at the index of a line, with or without a prefix. *)
Lemma toggleContent_nth T n l :
  nth_error (split T) n = Some l ->
  toggleContent T (Z.of_nat n) = Some (join (set_nth (split T) n (toggledLine l))) /\
  split (join (set_nth (split T) n (toggledLine l)))
  = set_nth (split T) n (toggledLine l).
Proof.
  intros Hl. destruct (hasCheckboxPrefix l) eqn:Hp.
  - now apply toggleContent_line.
  - rewrite (toggledLine_plain _ Hp), (set_nth_id _ _ _ Hl), join_split.
    split; [|reflexivity].
    rewrite toggleContent_spec, array_get_nth, Hl, Hp. now rewrite join_split.
Qed.

(** X5.  From the first toggle on, toggling one index is an involution: the
    third toggle gives back what the first gave, for every text and every
    index, in range or not. *)
Theorem toggle_thrice T (i : Z) :
  exists T1 T2,
    toggleContent T i = Some T1 /\
    toggleContent T1 i = Some T2 /\
    toggleContent T2 i = Some T1.
Proof.
  destruct (array_get (split T) i) as [l|] eqn:E.
  - apply array_get_inside in E as (n & -> & Hl).
    assert (Hn : n < length (split T)) by (apply nth_error_Some; congruence).
    destruct (toggleContent_nth _ _ _ Hl) as [H1 S1].
    set (T1 := join (set_nth (split T) n (toggledLine l))) in *.
    assert (Hl1 : nth_error (split T1) n = Some (toggledLine l))
      by (rewrite S1; now apply set_nth_same).
    destruct (toggleContent_nth _ _ _ Hl1) as [H2 S2].
    rewrite S1, set_nth_twice in H2, S2 by assumption.
    set (T2 := join (set_nth (split T) n (toggledLine (toggledLine l)))) in *.
    assert (Hl2 : nth_error (split T2) n = Some (toggledLine (toggledLine l)))
      by (rewrite S2; now apply set_nth_same).
    destruct (toggleContent_nth _ _ _ Hl2) as [H3 _].
    rewrite S2, set_nth_twice, toggledLine_thrice in H3 by assumption.
    exists T1, T2. auto.
  - assert (H : toggleContent T i = Some T).
    { rewrite toggleContent_spec, E. now rewrite join_split. }
    exists T, T. auto.
Qed.

Lemma isTaskLine_prefix l : isTaskLine l = true -> hasCheckboxPrefix l = true.
Proof.
  unfold isTaskLine, renderLine, hasCheckboxPrefix.
  destruct (uncheckedMatch l) as [[i t]|] eqn:EU.
  - intros _. apply uncheckedMatch_sound in EU as (_ & _ & s3 & -> & _).
    reflexivity.
  - destruct (checkedMatch l) as [[i t]|] eqn:EC; [|discriminate].
    intros _. apply checkedMatch_sound in EC as (_ & _ & s3 & -> & _).
    apply orb_true_r.
Qed.

Lemma toggle_task_changes T n l :
  nth_error (split T) n = Some l -> hasCheckboxPrefix l = true ->
  join (set_nth (split T) n (toggledLine l)) <> T.
Proof.
  intros Hl Hp H. destruct (toggleContent_nth _ _ _ Hl) as [_ S1].
  rewrite H in S1.
  assert (Hn : n < length (split T)) by (apply nth_error_Some; congruence).
  pose proof (set_nth_same (split T) n (toggledLine l) Hn) as Hs.
  rewrite <- S1, Hl in Hs. injection Hs as Hs.
  now elim (toggledLine_changes _ Hp).
Qed.

(** X6.  No checkbox on the screen is dead: tapping the box of any task line
    in view mode changes the draft and reports the changed content, once,
    to the parent. *)
Theorem checkbox_tap_changes_content p st i line :
  isOpen p = true -> mode st = view ->
  nth_error (split (localContent st)) i = Some line ->
  isTaskLine line = true ->
  exists newContent,
    step p st (ClickCheckbox (Z.of_nat i))
    = Some (setLocalContent newContent st, [onContentChange newContent]) /\
    newContent <> localContent st.
Proof.
  intros Ho Hm Hl Ht.
  destruct (toggleContent_nth _ _ _ Hl) as [H1 _].
  eexists. split.
  - unfold step. rewrite Ho, Hm. cbn [negb]. rewrite Nat2Z.id, Hl, Ht.
    destruct (Z.leb_spec 0 (Z.of_nat i)) as [_|]; [|lia]. cbn [andb].
    unfold handleToggleTask. rewrite H1. reflexivity.
  - apply toggle_task_changes; [assumption | now apply isTaskLine_prefix].
Qed.

Lemma checkbox_tap_changes_content_witness :
  exists newContent,
    step sampleProps (initial sampleProps) (ClickCheckbox 0)
    = Some (setLocalContent newContent (initial sampleProps),
            [onContentChange newContent]) /\
    newContent <> localContent (initial sampleProps).
Proof.
  exact (checkbox_tap_changes_content sampleProps (initial sampleProps) 0
           (js "- [ ] A") eq_refl eq_refl eq_refl eq_refl).
Defined.

(** * More about the modes *)

Lemma step_while_running p st e :
  isAutoRunning p = true -> mode st = view ->
  exists st' cs, step p st e = Some (st', cs) /\ mode st' = view /\
                 Forall isContentChange cs.
Proof.
  intros Hr Hm. unfold step. destruct (isOpen p); cbn [negb]; [|eauto 6].
  destruct e; rewrite ?Hr, ?Hm; eauto 6.
  destruct (nth_error _ _) as [l|]; [|eauto 6].
  destruct (_ && _); [|eauto 6].
  unfold handleToggleTask.
  destruct (toggleContent_total (localContent st) lineIndex) as [c ->].
  do 2 eexists. split; [reflexivity|]. split; [assumption|].
  constructor; [now exists c | constructor].
Qed.

(** X7.  While an auto-run is running the component cannot leave view mode:
    whatever the user clicks or types, no event throws, the mode stays
    [view], and the only callback fired is a content change from a
    checkbox. *)
Theorem running_locks_view p : forall es st,
  isAutoRunning p = true -> mode st = view ->
  exists st' cs, steps p st es = Some (st', cs) /\ mode st' = view /\
                 Forall isContentChange cs.
Proof.
  induction es as [|e es IH]; intros st Hr Hm.
  - exists st, []. repeat split; [assumption | constructor].
  - destruct (step_while_running p st e Hr Hm) as (st1 & cs1 & H1 & Hm1 & Hc1).
    destruct (IH st1 Hr Hm1) as (st2 & cs2 & H2 & Hm2 & Hc2).
    exists st2, (cs1 ++ cs2). cbn [steps]. rewrite H1, H2.
    repeat split; [assumption | now apply Forall_app].
Qed.

Lemma running_locks_view_witness :
  exists st' cs,
    steps runningProps (initial runningProps)
          [ClickEdit; TypeText (js "x"); ClickCheckbox 0; ClickSave]
    = Some (st', cs) /\ mode st' = view /\ Forall isContentChange cs.
Proof.
  exact (running_locks_view runningProps
           [ClickEdit; TypeText (js "x"); ClickCheckbox 0; ClickSave]
           (initial runningProps) eq_refl eq_refl).
Defined.

(** X8.  A draft can reach the parent without Save: after Edit and typing,
    the View button keeps the typed text as draft, and a tap on one of its
    checkboxes then reports the typed text, with that box toggled. *)
Theorem draft_commits_on_tap p draft i line :
  isOpen p = true -> isAutoRunning p = false ->
  nth_error (split draft) i = Some line -> isTaskLine line = true ->
  exists newContent,
    toggleContent draft (Z.of_nat i) = Some newContent /\
    steps p (initial p)
          [ClickEdit; TypeText draft; ClickView; ClickCheckbox (Z.of_nat i)]
    = Some ({| mode := view; localContent := newContent; showStats := true |},
            [onContentChange newContent]).
Proof.
  intros Ho Hr Hl Ht.
  destruct (toggleContent_nth _ _ _ Hl) as [H1 _].
  eexists. split; [exact H1|].
  cbn [steps]. unfold step. rewrite Ho, Hr.
  cbn [negb setMode setLocalContent initial mode localContent showStats].
  rewrite Nat2Z.id, Hl, Ht.
  destruct (Z.leb_spec 0 (Z.of_nat i)) as [_|]; [|lia]. cbn [andb].
  unfold handleToggleTask.
  change (localContent (setMode view
                          (setLocalContent draft (setMode edit (initial p)))))
    with draft.
  rewrite H1. reflexivity.
Qed.

Lemma draft_commits_on_tap_witness :
  exists newContent,
    toggleContent (js "- [ ] typed") 0 = Some newContent /\
    steps sampleProps (initial sampleProps)
          [ClickEdit; TypeText (js "- [ ] typed"); ClickView; ClickCheckbox 0]
    = Some ({| mode := view; localContent := newContent; showStats := true |},
            [onContentChange newContent]).
Proof.
  exact (draft_commits_on_tap sampleProps (js "- [ ] typed") 0 (js "- [ ] typed")
           eq_refl eq_refl eq_refl eq_refl).
Defined.

(** * The other rows of the renderer *)

Section Hashes.
Variable re : regex.

Lemma match_hash c : cls_match re (lit "#") c = isHash c.
Proof. change (lit "#") with (Lit 35). apply match_punct. lia. Qed.

(** A run of [n] hashes in the pattern reads [n] hashes and nothing else. *)
Lemma run_hashes_sound r op caps res : forall n prev s,
  run re (repeat (One (lit "#")) n ++ r) prev s op caps = Some res ->
  exists s', s = repeat 35%N n ++ s' /\
             run re r (prevAfter prev (repeat 35%N n)) s' op caps = Some res.
Proof.
  induction n as [|n IH]; intros prev s H.
  - exists s. auto.
  - cbn [repeat app] in H. rewrite run_One in H.
    destruct s as [|c s]; [discriminate|].
    rewrite match_hash in H. unfold isHash in H.
    destruct (N.eqb_spec c 35) as [->|]; [|discriminate].
    apply IH in H as (s' & -> & H). exists s'. auto.
Qed.

Lemma run_hashes_complete r op caps : forall n prev s',
  run re (repeat (One (lit "#")) n ++ r) prev (repeat 35%N n ++ s') op caps
  = run re r (prevAfter prev (repeat 35%N n)) s' op caps.
Proof.
  induction n as [|n IH]; intros prev s'; [reflexivity|].
  cbn [repeat app]. rewrite run_One, match_hash. cbn [isHash N.eqb Pos.eqb].
  now rewrite IH.
Qed.
End Hashes.

Lemma takeWhile_hashes n c s :
  isHash c = false -> takeWhile isHash (repeat 35%N n ++ c :: s) = repeat 35%N n.
Proof.
  intros Hc. induction n as [|n IH]; cbn [repeat app takeWhile].
  - now rewrite Hc.
  - cbn [isHash N.eqb Pos.eqb]. now rewrite IH.
Qed.

Lemma space_not_hash c : isSpace c = true -> isHash c = false.
Proof.
  intros H. unfold isHash. destruct (N.eqb_spec c 35) as [->|]; [discriminate | reflexivity].
Qed.

Lemma firstn_prefix (a b : str) : firstn (length (a ++ b) - length b) (a ++ b) = a.
Proof.
  rewrite length_app. replace (_ + _ - _) with (length a + 0) by lia.
  rewrite firstn_app_2. simpl. apply app_nil_r.
Qed.

Lemma attempt_header n line :
  attempt (reHeader n) None line =
  match
    run (reHeader n) (repeat (One (lit "#")) n
                      ++ [Close; Plus Space; Open; Plus Dot; Close; Eol])
        None line line []
  with
  | Some res => Some res
  | None => None
  end.
Proof.
  unfold attempt.
  change (pattern (reHeader n)) with
    (Bol :: Open :: repeat (One (lit "#")) n
         ++ [Close; Plus Space; Open; Plus Dot; Close; Eol]).
  rewrite run_Bol, run_Open. cbn [atBol]. now destruct (run _ _ _ _ _ _).
Qed.

(** What one count of the header pattern matches. *)
Lemma header_count_sound n line hashes text :
  line_match (reHeader n) line = Some (hashes, text) ->
  hashes = repeat 35%N n /\
  exists c rest,
    line = hashes ++ c :: rest /\ isSpace c = true /\
    text <> [] /\ forallb notLT text = true /\
    dropWhile isSpace text = dropWhile isSpace rest.
Proof.
  unfold line_match.
  rewrite (exec_anchored (reHeader n) _ line eq_refl eq_refl), attempt_header.
  destruct (run _ _ _ _ _ _) as [[rest caps]|] eqn:R; [|discriminate].
  apply run_hashes_sound in R as (s' & Hl & R).
  rewrite run_Close, run_Plus, run_One in R.
  destruct s' as [|c s']; [discriminate|].
  change (cls_match (reHeader n) Space c) with (isSpace c) in R.
  destruct (isSpace c) eqn:Hc; [|discriminate].
  change (Star Space :: [Open; Plus Dot; Close; Eol])
    with [ws; Open; Plus Dot; Close; Eol] in R.
  apply line_tail_sound in R as (txt & -> & _ & Hne & Hn & Hd); [|reflexivity].
  cbn [groups nth app]. intros H; injection H as H1 H2. subst text.
  assert (Hh : hashes = repeat 35%N n).
  { rewrite <- H1. subst line. apply (firstn_prefix (repeat 35%N n) (c :: s')). }
  split; [assumption|]. exists c, s'. rewrite Hh. auto.
Qed.

Lemma firstHeader_sound line hashes text : forall counts,
  firstHeader counts line = Some (hashes, text) ->
  exists n, In n counts /\ line_match (reHeader n) line = Some (hashes, text).
Proof.
  induction counts as [|n counts IH]; [discriminate|]. cbn [firstHeader].
  destruct (line_match (reHeader n) line) as [m|] eqn:E.
  - intros H; injection H as ->. exists n. split; [now left | assumption].
  - intros H. apply IH in H as (k & Hk & H). exists k. split; [now right | assumption].
Qed.

Lemma no_dash_no_task line :
  afterDash line = None -> uncheckedMatch line = None /\ checkedMatch line = None.
Proof.
  intros H. unfold uncheckedMatch, checkedMatch, line_match.
  rewrite (exec_anchored reUncheckedLine _ _ eq_refl eq_refl), attempt_uncheckedLine.
  rewrite (exec_anchored reCheckedLine _ _ eq_refl eq_refl), attempt_checkedLine.
  unfold afterUnchecked, afterChecked. now rewrite H.
Qed.

Lemma afterDash_hash (l : str) : afterDash (35%N :: l) = None.
Proof. reflexivity. Qed.

(** X9.  A header row has the level of the hashes the line begins with: one
    to six of them, followed by whitespace; its text is not empty, holds no
    line terminator and is the rest of the line from inside, or right
    after, that whitespace; its size is the table entry of the level. *)
Theorem header_level index line hashes text :
  headerMatch line = Some (hashes, text) ->
  hashes = takeWhile isHash line /\
  1 <= length hashes <= 6 /\
  text <> [] /\ forallb notLT text = true /\
  dropWhile isSpace text = dropWhile isSpace (skipn (length hashes) line) /\
  renderElement index line = HeaderRow (fontSize (length hashes)) text.
Proof.
  intros H. pose proof H as Hm. unfold headerMatch in H.
  apply firstHeader_sound in H as (n & Hn & H).
  apply header_count_sound in H as (Hh & c & rest & Hl & Hc & Hne & Hnl & Hd).
  assert (Hlen : length hashes = n) by (rewrite Hh; apply repeat_length).
  assert (Hrange : 1 <= n <= 6) by (simpl in Hn; lia).
  split.
  { rewrite Hl, Hh. symmetry. apply takeWhile_hashes. now apply space_not_hash. }
  split; [lia|]. split; [assumption|]. split; [assumption|]. split.
  - rewrite Hl, skipn_app, skipn_all, Nat.sub_diag.
    cbn [app skipn dropWhile]. now rewrite Hc.
  - unfold renderElement.
    assert (Hstart : exists l, line = 35%N :: l).
    { rewrite Hl, Hh. destruct n as [|n]; [lia|]. cbn [repeat app]. eauto. }
    destruct Hstart as [l El].
    assert (Hd0 : afterDash line = None) by (rewrite El; apply afterDash_hash).
    destruct (no_dash_no_task line Hd0) as [-> ->].
    now rewrite Hm.
Qed.

Lemma header_level_witness :
  js "###" = takeWhile isHash (js "###  Title") /\
  1 <= length (js "###") <= 6 /\
  js "Title" <> [] /\ forallb notLT (js "Title") = true /\
  dropWhile isSpace (js "Title")
  = dropWhile isSpace (skipn (length (js "###")) (js "###  Title")) /\
  renderElement 4 (js "###  Title") = HeaderRow (fontSize (length (js "###"))) (js "Title").
Proof. exact (header_level 4 (js "###  Title") (js "###") (js "Title") eq_refl). Defined.

Lemma headerMatch_hashes line hashes text :
  headerMatch line = Some (hashes, text) ->
  1 <= length hashes <= 6 /\
  exists c rest, line = hashes ++ c :: rest /\ isSpace c = true /\
                 hashes = takeWhile isHash line /\
                 exists l, line = 35%N :: l.
Proof.
  unfold headerMatch. intros H.
  apply firstHeader_sound in H as (n & Hn & H).
  apply header_count_sound in H as (Hh & c & rest & Hl & Hc & _).
  assert (Hlen : length hashes = n) by (rewrite Hh; apply repeat_length).
  split; [simpl in Hn; lia|]. exists c, rest. repeat split; try assumption.
  - rewrite Hl, Hh. symmetry.
    apply takeWhile_hashes. now apply space_not_hash.
  - rewrite Hl, Hh. destruct n as [|n]; [simpl in Hn; lia|].
    cbn [repeat app]. eauto.
Qed.

Lemma repeat_hashes_longer c s s' : forall k n,
  k < n -> repeat 35%N k ++ c :: s = repeat 35%N n ++ s' -> c = 35%N.
Proof.
  induction k as [|k IH]; intros n Hk H.
  - destruct n as [|n]; [lia|]. now injection H.
  - destruct n as [|n]; [lia|]. cbn [repeat app] in H. injection H as H.
    apply (IH n); [lia | assumption].
Qed.

(** A count above the hashes the line has matches nothing. *)
Lemma header_count_more n k c s :
  k < n -> isSpace c = true ->
  line_match (reHeader n) (repeat 35%N k ++ c :: s) = None.
Proof.
  intros Hk Hc. unfold line_match.
  rewrite (exec_anchored (reHeader n) _ _ eq_refl eq_refl), attempt_header.
  destruct (run _ _ _ _ _ _) as [[rest caps]|] eqn:R; [|reflexivity].
  apply run_hashes_sound in R as (s' & Hl & _).
  apply repeat_hashes_longer in Hl; [|assumption]. subst c. discriminate.
Qed.

(** The count the line has matches, with the text after the whitespace. *)
Lemma header_count_exact k c w text :
  isSpace c = true -> forallb isSpace w = true ->
  text <> [] -> dropWhile isSpace text = text -> forallb notLT text = true ->
  line_match (reHeader k) (repeat 35%N k ++ (c :: w) ++ text)
  = Some (repeat 35%N k, text).
Proof.
  intros Hc Hw Hne Hd Hn. unfold line_match.
  rewrite (exec_anchored (reHeader k) _ _ eq_refl eq_refl), attempt_header.
  rewrite run_hashes_complete, run_Close, run_Plus, run_One.
  cbn [app]. change (cls_match (reHeader k) Space c) with (isSpace c). rewrite Hc.
  change (Star Space :: [Open; Plus Dot; Close; Eol])
    with [ws; Open; Plus Dot; Close; Eol].
  destruct text as [|t0 u]; [contradiction|].
  rewrite (line_tail_complete (reHeader k) _ _ _ _ t0 u);
    [| now rewrite dropWhile_app_all | assumption].
  cbn [groups nth app]. do 2 f_equal.
  apply (firstn_prefix (repeat 35%N k) (c :: w ++ t0 :: u)).
Qed.

(** X10.  One to six hashes, whitespace, and a text that starts with a
    character that is no whitespace and holds no line terminator: the line
    is a header row of that level with that text. *)
Theorem header_of_level index level c w text :
  1 <= level <= 6 ->
  isSpace c = true -> forallb isSpace w = true ->
  text <> [] -> dropWhile isSpace text = text -> forallb notLT text = true ->
  renderElement index (repeat 35%N level ++ (c :: w) ++ text)
  = HeaderRow (fontSize level) text.
Proof.
  intros Hlevel Hc Hw Hne Hd Hn.
  assert (Hm : headerMatch (repeat 35%N level ++ (c :: w) ++ text)
               = Some (repeat 35%N level, text)).
  { pose proof (header_count_exact level c w text Hc Hw Hne Hd Hn) as Hex.
    pose proof (fun n H => header_count_more n level c (w ++ text) H Hc) as Hmore.
    cbn [app] in *. unfold headerMatch.
    assert (Hcases : level = 1 \/ level = 2 \/ level = 3 \/ level = 4 \/
                     level = 5 \/ level = 6) by lia.
    cbn [firstHeader].
    destruct Hcases as [->|[->|[->|[->|[->| ->]]]]];
      repeat (rewrite Hex || (rewrite Hmore by lia)); reflexivity. }
  assert (Hd0 : afterDash (repeat 35%N level ++ (c :: w) ++ text) = None).
  { destruct level as [|n]; [lia|]. apply afterDash_hash. }
  unfold renderElement. destruct (no_dash_no_task _ Hd0) as [-> ->].
  rewrite Hm. now rewrite repeat_length.
Qed.

Lemma header_of_level_witness :
  renderElement 0 (repeat 35%N 2 ++ (js " " ++ js " ") ++ js "Plan")
  = HeaderRow (fontSize 2) (js "Plan").
Proof.
  apply (header_of_level 0 2 32%N (js " ") (js "Plan"));
    [lia | reflexivity | reflexivity | discriminate | reflexivity | reflexivity].
Defined.

Lemma dropWhile_snoc (f : char -> bool) a x :
  f x = false -> dropWhile f (a ++ [x]) <> [].
Proof.
  intros Hx H. apply dropWhile_nil_all in H.
  rewrite forallb_app in H. simpl in H. rewrite Hx in H.
  now rewrite andb_false_r in H.
Qed.

Lemma trim_nil line : trim line = [] <-> allSpace line = true.
Proof.
  unfold trim, allSpace. split.
  - intros H. apply (f_equal (@rev char)) in H. rewrite rev_involutive in H.
    cbn [rev] in H. apply dropWhile_nil_all.
    destruct (dropWhile isSpace line) as [|c u] eqn:E; [reflexivity|].
    apply dropWhile_head in E. cbn [rev] in H.
    now elim (dropWhile_snoc isSpace (rev u) c E).
  - intros H. now rewrite (dropWhile_all_nil _ _ H).
Qed.

(** X11.  A line that begins with hashes is plain text, drawn as it is,
    when it has more than six of them or when what follows them is no
    whitespace (the end of the line among them). *)
Theorem hashes_without_header index line :
  takeWhile isHash line <> [] ->
  (7 <= length (takeWhile isHash line) \/
   forall c rest, dropWhile isHash line = c :: rest -> isSpace c = false) ->
  renderElement index line = TextRow line.
Proof.
  intros Hne Hcase.
  assert (Hstart : exists l, line = 35%N :: l).
  { destruct line as [|c l]; [now elim Hne|]. cbn [takeWhile] in Hne.
    unfold isHash in Hne. destruct (N.eqb_spec c 35) as [->|]; [eauto | now elim Hne]. }
  destruct Hstart as [l El].
  assert (Hd0 : afterDash line = None) by (rewrite El; apply afterDash_hash).
  assert (Hm : headerMatch line = None).
  { destruct (headerMatch line) as [[h t]|] eqn:E; [|reflexivity]. exfalso.
    apply headerMatch_hashes in E as (Hlen & c & rest & Hl & Hc & Hh & _).
    destruct Hcase as [H7|Hns].
    - rewrite <- Hh in H7. lia.
    - assert (Hdrop : dropWhile isHash line = c :: rest).
      { pose proof (take_drop_while isHash line) as Htd.
        rewrite <- Hh in Htd. rewrite Hl in Htd at 2.
        now apply app_inv_head in Htd. }
      rewrite (Hns _ _ Hdrop) in Hc. discriminate. }
  unfold renderElement. destruct (no_dash_no_task _ Hd0) as [-> ->]. rewrite Hm.
  destruct (trim line) eqn:Et; [|reflexivity].
  apply trim_nil in Et. rewrite El in Et. discriminate.
Qed.

Lemma hashes_without_header_witness :
  renderElement 3 (js "####### seven") = TextRow (js "####### seven") /\
  renderElement 3 (js "#tag") = TextRow (js "#tag").
Proof.
  split.
  - apply hashes_without_header; [discriminate | left; simpl; lia].
  - apply hashes_without_header; [discriminate | right].
    intros c rest H. injection H as <- _. reflexivity.
Defined.

(** X12.  A line is drawn as a spacer exactly when it holds nothing but
    whitespace: the empty line, and any run of spaces or tabs. *)
Theorem spacer_iff_blank index line :
  renderElement index line = Spacer <-> allSpace line = true.
Proof.
  split.
  - unfold renderElement.
    destruct (uncheckedMatch line) as [[i t]|]; [discriminate|].
    destruct (checkedMatch line) as [[i t]|]; [discriminate|].
    destruct (headerMatch line) as [[h t]|]; [discriminate|].
    destruct (trim line) eqn:E; [|discriminate]. intros _. now apply trim_nil.
  - intros H.
    assert (Hm : headerMatch line = None).
    { destruct (headerMatch line) as [[h t]|] eqn:E; [|reflexivity]. exfalso.
      apply headerMatch_hashes in E as (_ & _ & _ & _ & _ & _ & l & El).
      rewrite El in H. discriminate. }
    unfold renderElement.
    destruct (no_dash_no_task _ (afterDash_allSpace _ H)) as [-> ->].
    rewrite Hm. now rewrite (proj2 (trim_nil line) H).
Qed.

(** X13.  Every checkbox on the screen toggles its own line: a task row
    carries the index, in [split] of the content, of the line it was drawn
    from, shows the state and text the renderer read from that line, and is
    indented by eight pixels for each leading whitespace character. *)
Theorem task_row_targets_own_line T checked padding index text :
  In (TaskRow checked padding index text) (TaskListRenderer T) ->
  exists line indent,
    nth_error (split T) index = Some line /\
    renderLine line = (if checked then CheckedBox indent text
                       else UncheckedBox indent text) /\
    padding = 8 * length (takeWhile isSpace line).
Proof.
  unfold TaskListRenderer. intros H.
  apply mapFrom_In in H as (i & line & Hl & He). cbn [Nat.add] in He.
  unfold renderElement in He.
  destruct (uncheckedMatch line) as [[ind t]|] eqn:EU.
  - injection He as -> -> -> ->. exists line, ind.
    split; [assumption|]. split; [unfold renderLine; now rewrite EU|].
    apply uncheckedMatch_sound in EU as (-> & _).
    unfold paddingLeft. apply Nat.mul_comm.
  - destruct (checkedMatch line) as [[ind t]|] eqn:EC.
    + injection He as -> -> -> ->. exists line, ind.
      split; [assumption|]. split; [unfold renderLine; now rewrite EU, EC|].
      apply checkedMatch_sound in EC as (-> & _).
      unfold paddingLeft. apply Nat.mul_comm.
    + destruct (headerMatch line) as [[h t]|]; [discriminate|].
      destruct (trim line); discriminate.
Qed.

Lemma task_row_targets_own_line_witness :
  exists line indent,
    nth_error (split sampleText) 2 = Some line /\
    renderLine line = UncheckedBox indent (js "A") /\
    16 = 8 * length (takeWhile isSpace line).
Proof.
  apply (task_row_targets_own_line sampleText false 16 2 (js "A")).
  vm_compute. auto 10.
Defined.

(** * The Run button and the content effect *)

(** X14.  The title of the Run button accounts for its state: the button is
    enabled exactly when the title reads Start AutoRun, a disabled button
    names the busy session or the missing tasks, and its label is the
    unchecked count. *)
Theorem run_title_explains p st disabled label :
  renderFooter p st = RunButton disabled label ->
  label = uncheckedCount st /\
  (disabled = false <-> runTitle p st = js "Start AutoRun") /\
  (disabled = true ->
   runTitle p st = js "Session is busy" \/ runTitle p st = js "No tasks to run").
Proof.
  unfold renderFooter, canStartAutoRun, runTitle.
  destruct (mode st); [|discriminate].
  destruct (isAutoRunning p); [discriminate|].
  intros H; injection H as <- <-. split; [reflexivity|].
  destruct (busy p); cbn [negb andb].
  - split; [split; discriminate | auto].
  - destruct (uncheckedCount st) as [|n]; cbn [Nat.ltb Nat.leb Nat.eqb negb].
    + split; [split; discriminate | auto].
    + split; [split; reflexivity | discriminate].
Qed.

Lemma run_title_explains_witness :
  1 = uncheckedCount (initial sampleProps) /\
  (false = false <-> runTitle sampleProps (initial sampleProps) = js "Start AutoRun") /\
  (false = true ->
   runTitle sampleProps (initial sampleProps) = js "Session is busy" \/
   runTitle sampleProps (initial sampleProps) = js "No tasks to run").
Proof.
  exact (run_title_explains sampleProps (initial sampleProps) false 1 eq_refl).
Defined.

(** X15.  A new [content] prop replaces the draft in either mode, so that
    in edit mode Save then reports the parent's own content and the typed
    text is gone; a render with the same [content] leaves the state alone,
    and so does a parent that hands back the content it was reported. *)
Theorem content_prop_replaces_draft before p st :
  (content p <> before ->
   contentEffect before p st = setLocalContent (content p) st /\
   (isOpen p = true -> mode st = edit ->
    step p (contentEffect before p st) ClickSave
    = Some (setMode view (setLocalContent (content p) st),
            [onContentChange (content p)])))
  /\
  (content p = before -> contentEffect before p st = st)
  /\
  (content p = localContent st -> contentEffect before p st = st).
Proof.
  unfold contentEffect, syncContent. repeat split.
  - destruct (list_eq_dec N.eq_dec before (content p)); [congruence | reflexivity].
  - intros Ho Hm.
    destruct (list_eq_dec N.eq_dec before (content p)); [congruence|].
    unfold step. rewrite Ho. cbn [negb setLocalContent mode]. rewrite Hm.
    reflexivity.
  - intros <-. destruct (list_eq_dec N.eq_dec (content p) (content p));
      [reflexivity | congruence].
  - intros E. destruct (list_eq_dec N.eq_dec before (content p)); [reflexivity|].
    rewrite E. now destruct st.
Qed.

Lemma content_prop_replaces_draft_witness :
  contentEffect (js "old") sampleProps
    {| mode := edit; localContent := js "typed"; showStats := true |}
  = {| mode := edit; localContent := js "- [ ] A"; showStats := true |}.
Proof.
  apply (proj1 (content_prop_replaces_draft (js "old") sampleProps
                  {| mode := edit; localContent := js "typed";
                     showStats := true |})).
  discriminate.
Defined.

(** * Lines that end in a line terminator *)

Section TextToTheEnd.
Variable re : regex.

(** The text the renderer's tail captures is an end piece of what the tail
    was run on. *)
Lemma line_tail_suffix prev s3 op caps rest caps' :
  flag_m re = false ->
  run re [ws; Open; Plus Dot; Close; Eol] prev s3 op caps = Some (rest, caps') ->
  exists w txt, s3 = w ++ txt /\ caps' = caps ++ [txt] /\
                txt <> [] /\ forallb notLT txt = true.
Proof.
  intros Hm H. pose proof H as H0.
  apply line_tail_sound in H0 as (txt & Hc & _ & Hne & Hn & _); [|assumption].
  unfold ws in H. apply star_split in H as (n & _ & H).
  rewrite run_Open, run_Plus, run_One in H.
  destruct (skipn n s3) as [|c u] eqn:E; [discriminate|].
  destruct (cls_match re Dot c); [|discriminate].
  apply star_split in H as (j & _ & H).
  rewrite run_Close, run_Eol in H.
  destruct (skipn j u) as [|d u'] eqn:Eu.
  - cbn [atEol run] in H. injection H as _ Hcaps.
    rewrite firstn_all2 in Hcaps by (simpl; lia).
    rewrite Hc in Hcaps. apply app_inv_head in Hcaps. injection Hcaps as Ht.
    exists (firstn n s3), txt. repeat split; try assumption.
    rewrite <- Ht, <- E. symmetry. apply firstn_skipn.
  - simpl in H. rewrite Hm in H. discriminate.
Qed.
End TextToTheEnd.

Lemma last_of_suffix (a b l : str) c :
  a ++ b = l ++ [c] -> b <> [] -> exists b', b = b' ++ [c].
Proof.
  intros H Hb. destruct (exists_last Hb) as (b' & d & ->).
  exists b'. rewrite app_assoc in H. apply app_inj_tail in H as [_ ->].
  reflexivity.
Qed.

Lemma notLT_last b c :
  forallb notLT (b ++ [c]) = true -> isLineTerminator c = false.
Proof.
  rewrite forallb_app. cbn [forallb]. intros H.
  apply andb_prop in H as [_ H]. rewrite andb_true_r in H.
  now apply negb_true_iff.
Qed.

Lemma afterUnchecked_suffix l s3 : afterUnchecked l = Some s3 -> exists a, l = a ++ s3.
Proof.
  unfold afterUnchecked. destruct (afterDash l) as [s2|] eqn:E; [|discriminate].
  intros H. apply afterDash_shape in E as (w1 & _ & ->).
  apply afterEmptyBox_shape in H as (w2 & _ & ->).
  exists (takeWhile isSpace l ++ 45%N :: w1 ++ 91%N :: w2 ++ [93%N]).
  repeat (rewrite <- app_assoc; cbn [app]). reflexivity.
Qed.

Lemma afterChecked_suffix l s3 : afterChecked l = Some s3 -> exists a, l = a ++ s3.
Proof.
  unfold afterChecked. destruct (afterDash l) as [s2|] eqn:E; [|discriminate].
  intros H. apply afterDash_shape in E as (w1 & _ & ->).
  apply afterTickedBox_shape in H as (x & _ & ->).
  exists (takeWhile isSpace l ++ 45%N :: w1 ++ 91%N :: [x; 93%N]).
  repeat (rewrite <- app_assoc; cbn [app]). reflexivity.
Qed.

Lemma uncheckedMatch_to_end l indent text :
  uncheckedMatch l = Some (indent, text) ->
  text <> [] /\ forallb notLT text = true /\ exists a, l = a ++ text.
Proof.
  unfold uncheckedMatch, line_match.
  rewrite (exec_anchored reUncheckedLine _ l eq_refl eq_refl), attempt_uncheckedLine.
  destruct (afterUnchecked l) as [s3|] eqn:E; [|discriminate].
  destruct (run _ _ _ s3 l _) as [[rest caps]|] eqn:R; [|discriminate].
  apply line_tail_suffix in R as (w & txt & Hs & -> & Hne & Hn); [|reflexivity].
  cbn [groups nth app]. intros H; injection H as _ <-.
  apply afterUnchecked_suffix in E as [a ->].
  repeat split; try assumption. exists (a ++ w). now rewrite Hs, app_assoc.
Qed.

Lemma checkedMatch_to_end l indent text :
  checkedMatch l = Some (indent, text) ->
  text <> [] /\ forallb notLT text = true /\ exists a, l = a ++ text.
Proof.
  unfold checkedMatch, line_match.
  rewrite (exec_anchored reCheckedLine _ l eq_refl eq_refl), attempt_checkedLine.
  destruct (afterChecked l) as [s3|] eqn:E; [|discriminate].
  destruct (run _ _ _ s3 l _) as [[rest caps]|] eqn:R; [|discriminate].
  apply line_tail_suffix in R as (w & txt & Hs & -> & Hne & Hn); [|reflexivity].
  cbn [groups nth app]. intros H; injection H as _ <-.
  apply afterChecked_suffix in E as [a ->].
  repeat split; try assumption. exists (a ++ w). now rewrite Hs, app_assoc.
Qed.

Lemma header_to_end n l hashes text :
  line_match (reHeader n) l = Some (hashes, text) ->
  text <> [] /\ forallb notLT text = true /\ exists a, l = a ++ text.
Proof.
  unfold line_match.
  rewrite (exec_anchored (reHeader n) _ l eq_refl eq_refl), attempt_header.
  destruct (run _ _ _ _ _ _) as [[rest caps]|] eqn:R; [|discriminate].
  apply run_hashes_sound in R as (s' & Hl & R).
  rewrite run_Close, run_Plus, run_One in R.
  destruct s' as [|c s']; [discriminate|].
  destruct (cls_match (reHeader n) Space c); [|discriminate].
  change (Star Space :: [Open; Plus Dot; Close; Eol])
    with [ws; Open; Plus Dot; Close; Eol] in R.
  apply line_tail_suffix in R as (w & txt & Hs & -> & Hne & Hn); [|reflexivity].
  cbn [groups nth app]. intros H; injection H as _ <-.
  repeat split; try assumption.
  exists (repeat 35%N n ++ c :: w). rewrite Hl, Hs.
  now rewrite <- app_assoc.
Qed.

Lemma no_text_before_terminator l c text :
  isLineTerminator c = true -> text <> [] -> forallb notLT text = true ->
  (exists a, l ++ [c] = a ++ text) -> False.
Proof.
  intros Hc Hne Hn [a Ha]. symmetry in Ha.
  destruct (last_of_suffix _ _ _ _ Ha Hne) as [b ->].
  apply notLT_last in Hn. congruence.
Qed.

(** X16.  A line that ends in a line terminator, as every line but the last
    of a text with CR LF line ends does, gets neither a checkbox nor a
    header: the renderer draws it as plain text, or as a spacer when it is
    all whitespace. *)
Theorem line_before_terminator_is_text index l c :
  isLineTerminator c = true ->
  renderLine (l ++ [c]) = NoBox /\
  renderElement index (l ++ [c])
  = (if allSpace l then Spacer else TextRow (l ++ [c])).
Proof.
  intros Hc.
  assert (HU : uncheckedMatch (l ++ [c]) = None).
  { destruct (uncheckedMatch (l ++ [c])) as [[i t]|] eqn:E; [|reflexivity].
    apply uncheckedMatch_to_end in E as (Hne & Hn & Ha).
    now elim (no_text_before_terminator l c t). }
  assert (HC : checkedMatch (l ++ [c]) = None).
  { destruct (checkedMatch (l ++ [c])) as [[i t]|] eqn:E; [|reflexivity].
    apply checkedMatch_to_end in E as (Hne & Hn & Ha).
    now elim (no_text_before_terminator l c t). }
  assert (HH : headerMatch (l ++ [c]) = None).
  { destruct (headerMatch (l ++ [c])) as [[h t]|] eqn:E; [|reflexivity].
    unfold headerMatch in E. apply firstHeader_sound in E as (n & _ & E).
    apply header_to_end in E as (Hne & Hn & Ha).
    now elim (no_text_before_terminator l c t). }
  split; [unfold renderLine; now rewrite HU, HC|].
  unfold renderElement. rewrite HU, HC, HH.
  assert (Hs : allSpace (l ++ [c]) = allSpace l).
  { unfold allSpace. rewrite forallb_app. cbn [forallb].
    rewrite (lineTerminator_space _ Hc). now rewrite !andb_true_r. }
  destruct (trim (l ++ [c])) as [|d u] eqn:Et.
  - apply trim_nil in Et. rewrite Hs in Et. now rewrite Et.
  - destruct (allSpace l); [|reflexivity].
    apply trim_nil in Hs. congruence.
Qed.

Lemma line_before_terminator_is_text_witness :
  renderLine (js "- [ ] A" ++ [13%N]) = NoBox /\
  renderElement 0 (js "- [ ] A" ++ [13%N])
  = (if allSpace (js "- [ ] A") then Spacer else TextRow (js "- [ ] A" ++ [13%N])).
Proof.
  exact (line_before_terminator_is_text 0 (js "- [ ] A") 13%N eq_refl).
Defined.
